(** * binstruct: the reflection-driven decoder of [unmarshal.go]

    A shallow embedding of [Unmarshal], [unmarshal], [setValueToField],
    [callFunc] and [setOffset].  Go's [reflect.Value]s are handles into a
    store of record instances, the reader is an interface with a state of its
    own, and every engine step is a function on an explicit machine state. *)

From Stdlib Require Import ZArith Strings.String Strings.Ascii Strings.Byte Lia.
From stdpp Require Import base option list strings gmap pretty.

Set Warnings "-register-all".

Local Open Scope Z_scope.

(** ** [reflect.Kind] *)

Module reflect.

Inductive Kind :=
| Invalid | Bool
| Int | Int8 | Int16 | Int32 | Int64
| Uint | Uint8 | Uint16 | Uint32 | Uint64 | Uintptr
| Float32 | Float64 | Complex64 | Complex128
| Array | Chan | Func | Interface | Map | Ptr | Slice | String | Struct
| UnsafePointer.

#[global] Instance Kind_eq_dec : EqDecision Kind.
Proof. solve_decision. Defined.

(** [Kind.String]. *)
Definition KindString (k : Kind) : string :=
  match k with
  | Invalid => "invalid" | Bool => "bool"
  | Int => "int" | Int8 => "int8" | Int16 => "int16" | Int32 => "int32"
  | Int64 => "int64"
  | Uint => "uint" | Uint8 => "uint8" | Uint16 => "uint16"
  | Uint32 => "uint32" | Uint64 => "uint64" | Uintptr => "uintptr"
  | Float32 => "float32" | Float64 => "float64"
  | Complex64 => "complex64" | Complex128 => "complex128"
  | Array => "array" | Chan => "chan" | Func => "func"
  | Interface => "interface" | Map => "map" | Ptr => "ptr"
  | Slice => "slice" | String => "string" | Struct => "struct"
  | UnsafePointer => "unsafe.Pointer"
  end.

End reflect.

(** ** Go types, as [reflect.Type] shows them *)

(** A defined type is referred to by package and name; what it is declared
    as (its fields, its methods) lives in the program's declaration table.
    [TError] is the predeclared interface [error], [TReader] the interface
    [binstruct.Reader]. *)
Inductive GoType :=
| TBasic (k : reflect.Kind)
| TSlice (elem : GoType)
| TArray (len : nat) (elem : GoType)
| TPtr (elem : GoType)
| TNamed (pkg name : string)
| TError
| TReader
| TInterface (lit : string)
| TOther (k : reflect.Kind) (lit : string).

#[global] Instance GoType_eq_dec : EqDecision GoType.
Proof. solve_decision. Defined.

(** ** Errors ([github.com/pkg/errors] and [InvalidUnmarshalError]) *)

Definition dquote : string := String (ascii_of_nat 34) EmptyString.

Module errors.

Inductive error :=
| New (message : string)
| Wrap (cause : error) (message : string)
| InvalidUnmarshalError (Type_ : option GoType).

End errors.

Abbreviation error := errors.error.

#[global] Instance error_eq_dec : EqDecision error.
Proof. solve_decision. Defined.

(** [errors.Wrapf(err, `... "%s"`, name)]: the format's only verb is the
    quoted field name that ends it. *)
Definition Wrapf (err : error) (format : string) (name : string) : error :=
  errors.Wrap err (format +:+ dquote +:+ name +:+ dquote).

(** ** Values held by the store *)

Record Loc := mkLoc { loc_root : nat; loc_path : list nat }.

#[global] Instance Loc_eq_dec : EqDecision Loc.
Proof. solve_decision. Defined.

(** An integer field holds its value already reduced to the field's width;
    a float field holds its IEEE bit pattern; a slice is its elements (the
    decoder reaches a slice only through the field that owns it). *)
Inductive Value :=
| VBool (b : bool)
| VInt (z : Z)
| VUint (z : Z)
| VFloat32 (bits : Z)
| VFloat64 (bits : Z)
| VString (s : string)
| VSlice (elems : list Value)
| VArray (elems : list Value)
| VStruct (fields : list Value)
| VPtr (target : option Loc)
| VErr (e : option error)
| VOpaque.

(** The value under a path of field and element indices. *)
Fixpoint get_path (v : Value) (p : list nat) {struct p} : option Value :=
  match p with
  | [] => Some v
  | i :: p' =>
      match v with
      | VStruct l | VArray l | VSlice l =>
          match l !! i with
          | Some x => get_path x p'
          | None => None
          end
      | _ => None
      end
  end.

(** Overwriting the value under a path; a path that leads nowhere writes
    nothing. *)
Fixpoint set_path (v : Value) (p : list nat) (w : Value) {struct p} : Value :=
  match p with
  | [] => w
  | i :: p' =>
      match v with
      | VStruct l => VStruct (alter (fun x => set_path x p' w) i l)
      | VArray l => VArray (alter (fun x => set_path x p' w) i l)
      | VSlice l => VSlice (alter (fun x => set_path x p' w) i l)
      | _ => v
      end
  end.

Abbreviation Heap := (list Value).

Definition heap_get (h : Heap) (l : Loc) : option Value :=
  match h !! loc_root l with
  | Some v => get_path v (loc_path l)
  | None => None
  end.

Definition heap_set (h : Heap) (l : Loc) (w : Value) : Heap :=
  alter (fun v => set_path v (loc_path l) w) (loc_root l) h.

(** [h'] is [h] with the value under [l] replaced and values added at the
    end. *)
Definition Frame (l : Loc) (h h' : Heap) : Prop :=
  exists w extra, h' = heap_set h l w ++ extra.

(** ** The reader port *)

(** What the engine asked of the reader, and which routines it invoked. *)
Inductive Event :=
| EvReadInt8 | EvReadInt16 | EvReadInt32 | EvReadInt64
| EvReadUint8 | EvReadUint16 | EvReadUint32 | EvReadUint64
| EvReadFloat32 | EvReadFloat64
| EvReadBool
| EvReadBytes (n : Z)
| EvSeek (offset : Z) (whence : Z)
| EvCall (receiver : Loc) (name : string).

#[global] Instance Event_eq_dec : EqDecision Event.
Proof. solve_decision. Defined.

(** The [Reader] interface over a reader state [R]: each operation returns
    its result or an error, and the reader it leaves behind. *)
Class Reader (R : Type) := {
  ReadInt8 : R -> (error + Z) * R;
  ReadInt16 : R -> (error + Z) * R;
  ReadInt32 : R -> (error + Z) * R;
  ReadInt64 : R -> (error + Z) * R;
  ReadUint8 : R -> (error + Z) * R;
  ReadUint16 : R -> (error + Z) * R;
  ReadUint32 : R -> (error + Z) * R;
  ReadUint64 : R -> (error + Z) * R;
  ReadFloat32 : R -> (error + Z) * R;
  ReadFloat64 : R -> (error + Z) * R;
  ReadBool : R -> (error + bool) * R;
  ReadBytes : Z -> R -> (error + (Z * list byte)) * R;
  Seek : Z -> Z -> R -> (error + Z) * R
}.

(** ** Declarations of the decoded program *)

(** [reflect.StructField], with the value of the field's [bin] tag. *)
Record StructField := {
  Name : string;
  PkgPath : string;
  Type_ : GoType;
  Tag : string
}.

#[global] Instance StructField_eq_dec : EqDecision StructField.
Proof. solve_decision. Defined.

(** A method of a pointer receiver: its parameter and result types, and what
    a call does to the receiver and to the reader it is handed. *)
Record Method (R : Type) := {
  m_in : list GoType;
  m_out : list GoType;
  m_call : Value -> R -> list Value * Value * R
}.
Arguments m_in {R} _.
Arguments m_out {R} _.
Arguments m_call {R} _ _ _.

Inductive Underlying :=
| UStruct (fields : list StructField)
| UOther (t : GoType).

#[global] Instance Underlying_eq_dec : EqDecision Underlying.
Proof. solve_decision. Defined.

Record TypeDecl (R : Type) := {
  td_underlying : Underlying;
  td_methods : gmap string (Method R)
}.
Arguments td_underlying {R} _.
Arguments td_methods {R} _.

Abbreviation Decls R := (gmap (string * string) (TypeDecl R)).

(** Modelled from the spec: the directive record [fieldReadData] and its
    [FieldOffset] entries, whose declarations are outside this file; the
    fields are the ones [setValueToField] and [setOffset] read. *)
Record FieldOffset := { Offset : Z; Whence : Z }.

Inductive fieldReadData := mkFieldReadData {
  Ignore : bool;
  Length : option Z;
  Offsets : list FieldOffset;
  FuncName : string;
  ElemFieldData : option fieldReadData
}.

(** [&fieldReadData{}] *)
Definition emptyFieldReadData : fieldReadData :=
  mkFieldReadData false None [] "" None.

(** ** [reflect.Value]: a handle into the store *)

(** Every value the engine handles is addressable; [rv_canset] is false
    exactly for a value reached through an unexported field. *)
Record RValue := mkRValue {
  rv_loc : Loc;
  rv_type : GoType;
  rv_canset : bool
}.

(** The argument of [Unmarshal], an [interface{}]: nil, or a dynamic type
    with its value. *)
Definition Iface := option (GoType * Value).

(** ** Integer widths *)

(** Width of the platform-dependent [int] and [uint] (a 64-bit target). *)
Definition intSize : Z := 64.

Definition kindBits (k : reflect.Kind) : Z :=
  match k with
  | reflect.Int8 | reflect.Uint8 => 8
  | reflect.Int16 | reflect.Uint16 => 16
  | reflect.Int32 | reflect.Uint32 | reflect.Float32 => 32
  | reflect.Int64 | reflect.Uint64 | reflect.Float64 => 64
  | _ => intSize
  end.

(** The kinds of the two integer cases of [setValueToField]. *)
Definition isSigned (k : reflect.Kind) : bool :=
  match k with
  | reflect.Int | reflect.Int8 | reflect.Int16 | reflect.Int32
  | reflect.Int64 => true
  | _ => false
  end.

Definition isUnsigned (k : reflect.Kind) : bool :=
  match k with
  | reflect.Uint | reflect.Uint8 | reflect.Uint16 | reflect.Uint32
  | reflect.Uint64 => true
  | _ => false
  end.

Definition wrapUnsigned (bits z : Z) : Z := z mod 2 ^ bits.

Definition wrapSigned (bits z : Z) : Z :=
  (z + 2 ^ (bits - 1)) mod 2 ^ bits - 2 ^ (bits - 1).

(** ** [strings.NewReplacer(...).Replace] *)

Fixpoint stripPrefix (old s : string) : option string :=
  match old with
  | EmptyString => Some s
  | String a old' =>
      match s with
      | String b s' => if Ascii.eqb a b then stripPrefix old' s' else None
      | EmptyString => None
      end
  end.

(** The first pair, in argument order, whose old string starts [s]: its
    replacement and what follows the match. *)
Fixpoint firstMatch (pairs : list (string * string)) (s : string)
  : option (string * string) :=
  match pairs with
  | [] => None
  | (old, new) :: rest =>
      match stripPrefix old s with
      | Some tail => Some (new, tail)
      | None => firstMatch rest s
      end
  end.

(** Replacements are made left to right, without overlap, and replaced text
    is not scanned again. *)
Fixpoint replaceFrom (n : nat) (pairs : list (string * string)) (s : string)
  : string :=
  match n with
  | O => s
  | S n' =>
      match firstMatch pairs s with
      | Some (new, tail) => new +:+ replaceFrom n' pairs tail
      | None =>
          match s with
          | EmptyString => EmptyString
          | String c s' => String c (replaceFrom n' pairs s')
          end
      end
  end.

Definition Replace (pairs : list (string * string)) (s : string) : string :=
  replaceFrom (S (String.length s)) pairs s.

Definition nl : string := String (ascii_of_nat 10) EmptyString.
Definition tab : string := String (ascii_of_nat 9) EmptyString.

(** The raw string literal of [setValueToField], lines 101 to 106. *)
Definition messageTemplate : string :=
  nl +:+ "failed call method, expected methods:" +:+ nl
  +:+ tab +:+ "func (*{{Struct}}) {{MethodName}}(r binstruct.Reader) error {} "
  +:+ nl +:+ "or" +:+ nl
  +:+ tab
  +:+ "func (*{{Struct}}) {{MethodName}}(r binstruct.Reader) ({{FieldType}}, error) {}"
  +:+ nl.

(** ** Machine state and the monad of engine steps *)

Record State (R : Type) := mkState {
  rd : R;
  heap : Heap;
  trace : list Event
}.
Arguments mkState {R} _ _ _.
Arguments rd {R} _.
Arguments heap {R} _.
Arguments trace {R} _.

(** A step finishes with a result, or panics, or the bound on the recursion
    depth of this embedding is used up. *)
Inductive Outcome (A : Type) :=
| Done (a : A)
| Panicked (msg : string)
| OutOfFuel.
Arguments Done {A} _.
Arguments Panicked {A} _.
Arguments OutOfFuel {A}.

Definition M (R A : Type) : Type := State R -> Outcome A * State R.

Definition ret {R A} (a : A) : M R A := fun s => (Done a, s).

Definition bind {R A B} (c : M R A) (k : A -> M R B) : M R B :=
  fun s =>
    match c s with
    | (Done a, s') => k a s'
    | (Panicked msg, s') => (Panicked msg, s')
    | (OutOfFuel, s') => (OutOfFuel, s')
    end.

Definition panic {R A} (msg : string) : M R A := fun s => (Panicked msg, s).

Notation "x <- c ;; k" := (bind c (fun x => k))
  (at level 100, c at next level, right associativity).

(** ** The engine *)

Section Engine.

Context {R : Type} `{Reader R}.

(** The declarations of the program being decoded. *)
Variable decls : Decls R.

(** The tag parser and the directive resolver are collaborators declared
    outside this file: [parseTag] turns the tag's text into tags,
    [parseReadDataFromTags] turns tags into a directive, consulting the
    record being decoded. *)
Variable TagT : Type.
Variable parseTag : string -> error + TagT.
Variable parseReadDataFromTags :
  GoType -> Value -> TagT -> error + option fieldReadData.

Definition kindOfUnnamed (t : GoType) : reflect.Kind :=
  match t with
  | TBasic k => k
  | TSlice _ => reflect.Slice
  | TArray _ _ => reflect.Array
  | TPtr _ => reflect.Ptr
  | TNamed _ _ => reflect.Invalid
  | TError | TReader | TInterface _ => reflect.Interface
  | TOther k _ => k
  end.

Definition underlyingOf (t : GoType) : Underlying :=
  match t with
  | TNamed pkg name =>
      match decls !! (pkg, name) with
      | Some d => td_underlying d
      | None => UOther t
      end
  | _ => UOther t
  end.

(** [Type.Kind] *)
Definition kindOf (t : GoType) : reflect.Kind :=
  match underlyingOf t with
  | UStruct _ => reflect.Struct
  | UOther u => kindOfUnnamed u
  end.

(** [Type.Elem], of a slice, array or pointer type. *)
Definition elemOf (t : GoType) : option GoType :=
  match underlyingOf t with
  | UOther (TSlice e) | UOther (TArray _ e) | UOther (TPtr e) => Some e
  | _ => None
  end.

(** [Value.Len] of an array. *)
Definition arrayLen (t : GoType) : nat :=
  match underlyingOf t with
  | UOther (TArray n _) => n
  | _ => O
  end.

(** [Type.String] *)
Fixpoint TypeString (t : GoType) : string :=
  match t with
  | TBasic k => reflect.KindString k
  | TSlice e => "[]" +:+ TypeString e
  | TArray n e => "[" +:+ pretty n +:+ "]" +:+ TypeString e
  | TPtr e => "*" +:+ TypeString e
  | TNamed pkg name => pkg +:+ "." +:+ name
  | TError => "error"
  | TReader => "binstruct.Reader"
  | TInterface lit => lit
  | TOther _ lit => lit
  end.

(** [Type.Name]: empty for a type that is not defined. *)
Definition TypeName (t : GoType) : string :=
  match t with
  | TBasic reflect.UnsafePointer => "Pointer"
  | TBasic k => reflect.KindString k
  | TNamed _ name => name
  | TError => "error"
  | TReader => "Reader"
  | _ => ""
  end.

(** The zero value of a type; [None] when the nesting of declarations is
    deeper than [fuel]. *)
Fixpoint zeroValue (fuel : nat) (t : GoType) : option Value :=
  match fuel with
  | O => None
  | S fuel' =>
      match underlyingOf t with
      | UStruct fields =>
          match mapM (fun f => zeroValue fuel' (Type_ f)) fields with
          | Some vs => Some (VStruct vs)
          | None => None
          end
      | UOther (TArray n e) =>
          match zeroValue fuel' e with
          | Some v => Some (VArray (replicate n v))
          | None => None
          end
      | UOther (TSlice _) => Some (VSlice [])
      | UOther (TPtr _) => Some (VPtr None)
      | UOther TError => Some (VErr None)
      | UOther (TBasic k) =>
          Some match k with
               | reflect.Bool => VBool false
               | reflect.Int | reflect.Int8 | reflect.Int16 | reflect.Int32
               | reflect.Int64 => VInt 0
               | reflect.Uint | reflect.Uint8 | reflect.Uint16
               | reflect.Uint32 | reflect.Uint64 | reflect.Uintptr => VUint 0
               | reflect.Float32 => VFloat32 0
               | reflect.Float64 => VFloat64 0
               | reflect.String => VString ""
               | _ => VOpaque
               end
      | UOther _ => Some VOpaque
      end
  end.

(** [error.Error]: the text of an error; [InvalidUnmarshalError.Error] is
    lines 20 to 29. *)
Fixpoint Error (e : error) : string :=
  match e with
  | errors.New message => message
  | errors.Wrap cause message => message +:+ ": " +:+ Error cause
  | errors.InvalidUnmarshalError None => "binstruct: Unmarshal(nil)"
  | errors.InvalidUnmarshalError (Some t) =>
      if negb (bool_decide (kindOf t = reflect.Ptr)) then
        "binstruct: Unmarshal(non-pointer " +:+ TypeString t +:+ ")"
      else "binstruct: Unmarshal(nil " +:+ TypeString t +:+ ")"
  end.

Abbreviation St := (State R).
Abbreviation Step := (M R).

(** One call on the reader, noted in the trace. *)
Definition readerCall {A} (ev : Event) (op : R -> A * R) : Step A :=
  fun s =>
    let (a, r') := op (rd s) in
    (Done a, mkState r' (heap s) (trace s ++ [ev])).

(** [reflect.New(t).Elem()]: a fresh settable zero value. *)
Definition reflectNew (fuel : nat) (t : GoType) : Step RValue :=
  fun s =>
    match zeroValue fuel t with
    | Some v =>
        (Done (mkRValue (mkLoc (length (heap s)) []) t true),
         mkState (rd s) (heap s ++ [v]) (trace s))
    | None => (OutOfFuel, s)
    end.

(** The value a handle currently designates. *)
Definition load (v : RValue) : Step Value :=
  fun s =>
    match heap_get (heap s) (rv_loc v) with
    | Some x => (Done x, s)
    | None => (Done VOpaque, s)
    end.

(** [Value.Set] and the typed setters: all store at the handle. *)
Definition store (v : RValue) (x : Value) : Step unit :=
  fun s => (Done tt, mkState (rd s) (heap_set (heap s) (rv_loc v) x) (trace s)).

Definition SetInt (v : RValue) (x : Z) : Step unit :=
  store v (VInt (wrapSigned (kindBits (kindOf (rv_type v))) x)).

Definition SetUint (v : RValue) (x : Z) : Step unit :=
  store v (VUint (wrapUnsigned (kindBits (kindOf (rv_type v))) x)).

(** [Value.Field(i)]: settable when the record is and the field is
    exported. *)
Definition Field (structValue : RValue) (i : nat) (f : StructField) : RValue :=
  mkRValue
    (mkLoc (loc_root (rv_loc structValue)) (loc_path (rv_loc structValue) ++ [i]))
    (Type_ f)
    (rv_canset structValue && bool_decide (PkgPath f = "")).

(** [fieldValue.Set(reflect.Append(fieldValue, tmpV))] *)
Definition appendSet (fieldValue tmpV : RValue) : Step unit :=
  x <- load tmpV ;;
  cur <- load fieldValue ;;
  store fieldValue
    (VSlice (match cur with VSlice l => l | _ => [] end ++ [x])).

(** [fieldValue.Index(i).Set(tmpV)]: [Index] panics outside the array. *)
Definition indexSet (fieldValue tmpV : RValue) (i : nat) : Step unit :=
  if bool_decide (i < arrayLen (rv_type fieldValue))%nat then
    x <- load tmpV ;;
    store
      (mkRValue
         (mkLoc (loc_root (rv_loc fieldValue))
                (loc_path (rv_loc fieldValue) ++ [i]))
         (default (TBasic reflect.Invalid) (elemOf (rv_type fieldValue)))
         true)
      x
  else panic "reflect: array index out of range".

(** *** [setOffset] *)

Fixpoint setOffset (offsets : list FieldOffset) : Step (option error) :=
  match offsets with
  | [] => ret None
  | v :: rest =>
      r <- readerCall (EvSeek (Offset v) (Whence v)) (Seek (Offset v) (Whence v)) ;;
      match r with
      | inl err => ret (Some (errors.Wrap err "seek"))
      | inr _ => setOffset rest
      end
  end.

(** *** [callFunc] *)

(** [structValue.Addr().MethodByName(funcName)] *)
Definition MethodByName (structValue : RValue) (funcName : string)
  : option (Method R) :=
  match rv_type structValue with
  | TNamed pkg name =>
      match decls !! (pkg, name) with
      | Some d => td_methods d !! funcName
      | None => None
      end
  | _ => None
  end.

(** [m.Call([]reflect.Value{reflect.ValueOf(r)})]: the routine runs on the
    receiver and on the reader; what it does to the reader is its own and is
    not noted in the trace. *)
Definition Call (structValue : RValue) (funcName : string) (m : Method R)
  : Step (list Value) :=
  fun s =>
    let recv := default VOpaque (heap_get (heap s) (rv_loc structValue)) in
    let '(rets, recv', r') := m_call m recv (rd s) in
    (Done rets,
     mkState r' (heap_set (heap s) (rv_loc structValue) recv')
             (trace s ++ [EvCall (rv_loc structValue) funcName])).

(** A result declared [error]: nil unless it holds an error. *)
Definition asError (v : option Value) : option error :=
  match v with
  | Some (VErr (Some e)) => Some e
  | _ => None
  end.

Definition callFunc (funcName : string) (structValue fieldValue : RValue)
  : Step (bool * option error) :=
  match MethodByName structValue funcName with
  | Some m =>
      if bool_decide (length (m_in m) = 1%nat)
         && bool_decide (m_in m !! 0%nat = Some TReader)
      then
        rets <- Call structValue funcName m ;;
        (* Method(r binstruct.Reader) error *)
        if bool_decide (length (m_out m) = 1%nat)
           && bool_decide (m_out m !! 0%nat = Some TError)
        then
          match asError (rets !! 0%nat) with
          | Some e => ret (true, Some e)
          | None => ret (true, None)
          end
        (* Method(r binstruct.Reader) (FieldType, error) *)
        else if bool_decide (length (m_out m) = 2%nat)
                && bool_decide (m_out m !! 0%nat = Some (rv_type fieldValue))
                && bool_decide (m_out m !! 1%nat = Some TError)
        then
          match asError (rets !! 1%nat) with
          | Some e => ret (true, Some e)
          | None =>
              _ <- (if rv_canset fieldValue
                    then store fieldValue (default VOpaque (rets !! 0%nat))
                    else ret tt) ;;
              ret (true, None)
          end
        else ret (false, None)
      else ret (false, None)
  | None => ret (false, None)
  end.

(** *** [setValueToField] *)

(** [fieldData.Length != nil && *fieldData.Length == n] *)
Definition lengthIs (fieldData : fieldReadData) (n : Z) : bool :=
  match Length fieldData with
  | Some l => bool_decide (l = n)
  | None => false
  end.

(** The inner switch of the signed case, lines 123 to 140. *)
Definition readSigned (fieldData : fieldReadData) (k : reflect.Kind)
  : Step (error + Z) :=
  if lengthIs fieldData 1 || bool_decide (k = reflect.Int8) then
    readerCall EvReadInt8 ReadInt8
  else if lengthIs fieldData 2 || bool_decide (k = reflect.Int16) then
    readerCall EvReadInt16 ReadInt16
  else if lengthIs fieldData 4 || bool_decide (k = reflect.Int32) then
    readerCall EvReadInt32 ReadInt32
  else if lengthIs fieldData 8 || bool_decide (k = reflect.Int64) then
    readerCall EvReadInt64 ReadInt64
  else
    ret (inl (errors.New "need set tag with len or use int8/int16/int32/int64")).

(** The inner switch of the unsigned case, lines 152 to 169. *)
Definition readUnsigned (fieldData : fieldReadData) (k : reflect.Kind)
  : Step (error + Z) :=
  if lengthIs fieldData 1 || bool_decide (k = reflect.Uint8) then
    readerCall EvReadUint8 ReadUint8
  else if lengthIs fieldData 2 || bool_decide (k = reflect.Uint16) then
    readerCall EvReadUint16 ReadUint16
  else if lengthIs fieldData 4 || bool_decide (k = reflect.Uint32) then
    readerCall EvReadUint32 ReadUint32
  else if lengthIs fieldData 8 || bool_decide (k = reflect.Uint64) then
    readerCall EvReadUint64 ReadUint64
  else
    ret (inl (errors.New "need set tag with len or use uint8/uint16/uint32/uint64")).

(** [if fieldValue.CanSet() { ... }] *)
Definition whenCanSet (fieldValue : RValue) (c : Step unit) : Step unit :=
  if rv_canset fieldValue then c else ret tt.

(** The loop over the enclosing records, lines 89 to 99: [n] is [i + 1], so
    the loop ends when [n] reaches zero. *)
Fixpoint parentLoop (funcName : string) (fieldValue : RValue)
    (parentStructValues : list RValue) (n : nat)
    (after : Step (option error)) : Step (option error) :=
  match n with
  | O => after
  | S i =>
      match parentStructValues !! i with
      | Some sv =>
          r <- callFunc funcName sv fieldValue ;;
          match snd r with
          | Some err => ret (Some (errors.Wrap err "call custom func"))
          | None =>
              if fst r then ret None
              else parentLoop funcName fieldValue parentStructValues i after
          end
      | None => panic "runtime error: index out of range"
      end
  end.

(** Lines 101 to 112: the error of a delegation nobody served. *)
Definition noMethodError (structValue fieldValue : RValue) (funcName : string)
  : error :=
  errors.New
    (Replace
       [("{{Struct}}", TypeName (rv_type structValue));
        ("{{MethodName}}", funcName);
        ("{{FieldType}}", TypeString (rv_type fieldValue))]
       messageTemplate).

(** Lines 81 to 116. *)
Definition delegate (funcName : string) (structValue fieldValue : RValue)
    (parentStructValues : list RValue) : Step (option error) :=
  r <- callFunc funcName structValue fieldValue ;;
  match snd r with
  | Some err => ret (Some (errors.Wrap err "call custom func"))
  | None =>
      if negb (fst r) then
        (* Try call function from parent structs *)
        parentLoop funcName fieldValue parentStructValues
          (length parentStructValues)
          (ret (Some (noMethodError structValue fieldValue funcName)))
      else ret None
  end.

(** The loop of the slice case, lines 222 to 231, with [n] iterations left. *)
Fixpoint sliceLoop (decodeElem : RValue -> Step (option error))
    (newElem : Step RValue) (fieldValue : RValue) (n : nat)
  : Step (option error) :=
  match n with
  | O => ret None
  | S n' =>
      tmpV <- newElem ;;
      err <- decodeElem tmpV ;;
      match err with
      | Some e => ret (Some e)
      | None =>
          _ <- whenCanSet fieldValue (appendSet fieldValue tmpV) ;;
          sliceLoop decodeElem newElem fieldValue n'
      end
  end.

(** The loop of the array case, lines 243 to 252, at index [i] with [n]
    iterations left. *)
Fixpoint arrayLoop (decodeElem : RValue -> Step (option error))
    (newElem : Step RValue) (fieldValue : RValue) (i n : nat)
  : Step (option error) :=
  match n with
  | O => ret None
  | S n' =>
      tmpV <- newElem ;;
      err <- decodeElem tmpV ;;
      match err with
      | Some e => ret (Some e)
      | None =>
          _ <- whenCanSet fieldValue (indexSet fieldValue tmpV i) ;;
          arrayLoop decodeElem newElem fieldValue (S i) n'
      end
  end.

(** Lines 233 to 241: the number of elements the array case decodes. *)
Definition arrLenOf (fieldData : fieldReadData) (fieldValue : RValue) : Z :=
  let arrLen := match Length fieldData with Some l => l | None => 0 end in
  if bool_decide (arrLen = 0) then Z.of_nat (arrayLen (rv_type fieldValue))
  else arrLen.

(** The loop of [unmarshal] over the fields from index [i] on, lines 45 to
    64; [setField] is [u.setValueToField]. *)
Fixpoint unmarshalFields
    (setField : RValue -> RValue -> option fieldReadData -> list RValue ->
                Step (option error))
    (structValue : RValue) (parentStructValues : list RValue)
    (i : nat) (fields : list StructField) : Step (option error) :=
  match fields with
  | [] => ret None
  | fieldType :: rest =>
      match parseTag (Tag fieldType) with
      | inl err =>
          ret (Some (Wrapf err "failed parseTag for field " (Name fieldType)))
      | inr tags =>
          sv <- load structValue ;;
          match parseReadDataFromTags (rv_type structValue) sv tags with
          | inl err =>
              ret (Some (Wrapf err "failed parse ReadData from tags for field "
                               (Name fieldType)))
          | inr fieldData =>
              let fieldValue := Field structValue i fieldType in
              err <- setField structValue fieldValue fieldData
                       parentStructValues ;;
              match err with
              | Some e =>
                  ret (Some (Wrapf e "failed set value to field "
                                   (Name fieldType)))
              | None =>
                  unmarshalFields setField structValue parentStructValues
                    (S i) rest
              end
          end
      end
  end.

(** [rv.IsNil()] of a pointer. *)
Definition IsNil (v : Value) : bool :=
  match v with
  | VPtr (Some _) => false
  | _ => true
  end.

(** [unmarshal], lines 35 to 65, over the [setValueToField] it calls. *)
Definition unmarshalWith
    (setField : RValue -> RValue -> option fieldReadData -> list RValue ->
                Step (option error))
    (v : Iface) (parentStructValues : list RValue) : Step (option error) :=
  match v with
  | None => ret (Some (errors.InvalidUnmarshalError None))
  | Some (t, pv) =>
      if negb (bool_decide (kindOf t = reflect.Ptr)) || IsNil pv then
        ret (Some (errors.InvalidUnmarshalError (Some t)))
      else
        match pv, elemOf t with
        | VPtr (Some l), Some et =>
            let structValue := mkRValue l et true in
            match underlyingOf et with
            | UStruct fields =>
                unmarshalFields setField structValue parentStructValues
                  O fields
            | UOther _ =>
                panic ("reflect: call of reflect.Value.NumField on "
                       +:+ reflect.KindString (kindOf et) +:+ " Value")
            end
        | _, _ => panic "reflect: Elem of invalid value"
        end
  end.

Fixpoint setValueToField (fuel : nat) (structValue fieldValue : RValue)
    (fieldData : option fieldReadData) (parentStructValues : list RValue)
  : Step (option error) :=
  match fuel with
  | O => fun s => (OutOfFuel, s)
  | S fuel' =>
      let fieldData := default emptyFieldReadData fieldData in
      if Ignore fieldData then ret None
      else
        err <- setOffset (Offsets fieldData) ;;
        match err with
        | Some e => ret (Some (errors.Wrap e "set offset"))
        | None =>
            if negb (bool_decide (FuncName fieldData = "")) then
              delegate (FuncName fieldData) structValue fieldValue
                parentStructValues
            else
              let newElem :=
                match elemOf (rv_type fieldValue) with
                | Some et => reflectNew fuel' et
                | None => panic "reflect: Elem of invalid type"
                end in
              let decodeElem := fun tmpV =>
                setValueToField fuel' structValue tmpV
                  (ElemFieldData fieldData) parentStructValues in
              match kindOf (rv_type fieldValue) with
              | reflect.Int | reflect.Int8 | reflect.Int16 | reflect.Int32
              | reflect.Int64 =>
                  r <- readSigned fieldData (kindOf (rv_type fieldValue)) ;;
                  match r with
                  | inl e => ret (Some e)
                  | inr value =>
                      _ <- whenCanSet fieldValue (SetInt fieldValue value) ;;
                      ret None
                  end
              | reflect.Uint | reflect.Uint8 | reflect.Uint16 | reflect.Uint32
              | reflect.Uint64 =>
                  r <- readUnsigned fieldData (kindOf (rv_type fieldValue)) ;;
                  match r with
                  | inl e => ret (Some e)
                  | inr value =>
                      _ <- whenCanSet fieldValue (SetUint fieldValue value) ;;
                      ret None
                  end
              | reflect.Float32 =>
                  r <- readerCall EvReadFloat32 ReadFloat32 ;;
                  match r with
                  | inl e => ret (Some e)
                  | inr f =>
                      _ <- whenCanSet fieldValue (store fieldValue (VFloat32 f)) ;;
                      ret None
                  end
              | reflect.Float64 =>
                  r <- readerCall EvReadFloat64 ReadFloat64 ;;
                  match r with
                  | inl e => ret (Some e)
                  | inr f =>
                      _ <- whenCanSet fieldValue (store fieldValue (VFloat64 f)) ;;
                      ret None
                  end
              | reflect.Bool =>
                  r <- readerCall EvReadBool ReadBool ;;
                  match r with
                  | inl e => ret (Some e)
                  | inr b =>
                      _ <- whenCanSet fieldValue (store fieldValue (VBool b)) ;;
                      ret None
                  end
              | reflect.String =>
                  match Length fieldData with
                  | None =>
                      ret (Some (errors.New "need set tag with len for string"))
                  | Some l =>
                      r <- readerCall (EvReadBytes l) (ReadBytes l) ;;
                      match r with
                      | inl e => ret (Some e)
                      | inr (_, b) =>
                          _ <- whenCanSet fieldValue
                                 (store fieldValue
                                    (VString (string_of_list_byte b))) ;;
                          ret None
                      end
                  end
              | reflect.Slice =>
                  match Length fieldData with
                  | None =>
                      ret (Some (errors.New "need set tag with len for slice"))
                  | Some l =>
                      sliceLoop decodeElem newElem fieldValue (Z.to_nat l)
                  end
              | reflect.Array =>
                  arrayLoop decodeElem newElem fieldValue O
                    (Z.to_nat (arrLenOf fieldData fieldValue))
              | reflect.Struct =>
                  if rv_canset fieldValue then
                    err <- unmarshalWith (setValueToField fuel')
                             (Some (TPtr (rv_type fieldValue),
                                    VPtr (Some (rv_loc fieldValue))))
                             (parentStructValues ++ [structValue]) ;;
                    match err with
                    | Some e => ret (Some (errors.Wrap e "unmarshal struct"))
                    | None => ret None
                    end
                  else
                    panic "reflect.Value.Interface: cannot return value obtained from unexported field or method"
              | k =>
                  ret (Some (errors.New
                               ("type " +:+ dquote +:+ reflect.KindString k
                                +:+ dquote +:+ " not supported")))
              end
        end
  end.

(** [unmarshal] and the entry point [Unmarshal]. *)
Definition unmarshal (fuel : nat) (v : Iface) (parentStructValues : list RValue)
  : Step (option error) :=
  unmarshalWith (setValueToField fuel) v parentStructValues.

Definition Unmarshal (fuel : nat) (v : Iface) : Step (option error) :=
  unmarshal fuel v [].

(** *** The spec's words, for comparison with the code *)




(** The width in bytes a directive length selects, and the width a type
    fixes. *)
Definition lengthWidth (fieldData : fieldReadData) : option Z :=
  match Length fieldData with
  | Some l =>
      if bool_decide (l = 1 \/ l = 2 \/ l = 4 \/ l = 8) then Some l else None
  | None => None
  end.

Definition typeWidth (k : reflect.Kind) : option Z :=
  match k with
  | reflect.Int8 | reflect.Uint8 => Some 1
  | reflect.Int16 | reflect.Uint16 => Some 2
  | reflect.Int32 | reflect.Uint32 => Some 4
  | reflect.Int64 | reflect.Uint64 => Some 8
  | _ => None
  end.

(** The narrower of the two widths when both are there. *)
Definition resolvedWidth (fieldData : fieldReadData) (k : reflect.Kind)
  : option Z :=
  match lengthWidth fieldData, typeWidth k with
  | Some a, Some b => Some (Z.min a b)
  | Some a, None => Some a
  | None, w => w
  end.

(** The reader operation of a width in bytes. *)
Definition signedRead (w : Z) : Step (error + Z) :=
  if bool_decide (w = 1) then readerCall EvReadInt8 ReadInt8
  else if bool_decide (w = 2) then readerCall EvReadInt16 ReadInt16
  else if bool_decide (w = 4) then readerCall EvReadInt32 ReadInt32
  else readerCall EvReadInt64 ReadInt64.

Definition unsignedRead (w : Z) : Step (error + Z) :=
  if bool_decide (w = 1) then readerCall EvReadUint8 ReadUint8
  else if bool_decide (w = 2) then readerCall EvReadUint16 ReadUint16
  else if bool_decide (w = 4) then readerCall EvReadUint32 ReadUint32
  else readerCall EvReadUint64 ReadUint64.




(** The targets [Unmarshal] rejects: nil, a value that is not a pointer, and
    a nil pointer. *)
Definition invalidTarget (v : Iface) : Prop :=
  match v with
  | None => True
  | Some (t, pv) => kindOf t <> reflect.Ptr \/ IsNil pv = true
  end.

(** [reflect.TypeOf] *)
Definition TypeOf (v : Iface) : option GoType :=
  match v with
  | None => None
  | Some (t, _) => Some t
  end.

(** The routines of the program leave their receiver as they found it. *)
Definition receiversKept : Prop :=
  forall key d name (m : Method R) recv r,
    decls !! key = Some d -> td_methods d !! name = Some m ->
    snd (fst (m_call m recv r)) = recv.

(** A step is framed by a place when, started with that place in the store
    and however it ends, it leaves a store that differs from the one it
    found at most under the place and by values allocated since. *)
Definition Framed {A} (l : Loc) (c : Step A) : Prop :=
  forall s o s',
    (loc_root l < length (heap s))%nat -> c s = (o, s') ->
    Frame l (heap s) (heap s').

(** A step that allocates one settable value at the end of the store, or
    fails and leaves the store alone. *)
Definition Allocates (new : Step RValue) : Prop :=
  forall s o s',
    new s = (o, s') ->
    (exists v t,
        o = Done (mkRValue (mkLoc (length (heap s)) []) t true)
        /\ heap s' = heap s ++ [v])
    \/ ((forall x, o <> Done x) /\ heap s' = heap s).

(** [fieldData] with another [Length]. *)
Definition withLength (fieldData : fieldReadData) (l : option Z)
  : fieldReadData :=
  mkFieldReadData (Ignore fieldData) l (Offsets fieldData)
    (FuncName fieldData) (ElemFieldData fieldData).

End Engine.

(** ** A reader over a byte buffer *)

Inductive ByteOrder := LittleEndian | BigEndian.

(** Modelled from the spec: the reader port, which is declared outside this
    file.  A sequential, seekable byte source: every read advances the
    cursor by the bytes it consumed, a read past the available data fails
    with an end-of-data error, [ReadBytes] returns the bytes with the offset
    they start at, and [Seek] returns the resulting absolute position. *)
Record BufReader := mkBuf {
  buf : list byte;
  cursor : Z;
  order : ByteOrder
}.

Definition readN (n : nat) (r : BufReader) : (error + list byte) * BufReader :=
  let rest := drop (Z.to_nat (cursor r)) (buf r) in
  if bool_decide (n <= length rest)%nat then
    (inr (take n rest), mkBuf (buf r) (cursor r + Z.of_nat n) (order r))
  else
    (inl (errors.New (if bool_decide (rest = []) then "EOF" else "unexpected EOF")),
     mkBuf (buf r) (cursor r + Z.of_nat (length rest)) (order r)).

Fixpoint leUnsigned (bs : list byte) : Z :=
  match bs with
  | [] => 0
  | b :: rest => Z.of_N (Byte.to_N b) + 256 * leUnsigned rest
  end.

Definition unsignedOf (o : ByteOrder) (bs : list byte) : Z :=
  match o with
  | LittleEndian => leUnsigned bs
  | BigEndian => leUnsigned (rev bs)
  end.

Definition bufReadUint (w : nat) (r : BufReader) : (error + Z) * BufReader :=
  match readN w r with
  | (inr bs, r') => (inr (unsignedOf (order r) bs), r')
  | (inl e, r') => (inl e, r')
  end.

Definition bufReadInt (w : nat) (r : BufReader) : (error + Z) * BufReader :=
  match readN w r with
  | (inr bs, r') =>
      (inr (wrapSigned (8 * Z.of_nat w) (unsignedOf (order r) bs)), r')
  | (inl e, r') => (inl e, r')
  end.

Definition bufReadBool (r : BufReader) : (error + bool) * BufReader :=
  match readN 1 r with
  | (inr bs, r') => (inr (negb (bool_decide (leUnsigned bs = 0))), r')
  | (inl e, r') => (inl e, r')
  end.

Definition bufReadBytes (n : Z) (r : BufReader)
  : (error + (Z * list byte)) * BufReader :=
  match readN (Z.to_nat n) r with
  | (inr bs, r') => (inr (cursor r, bs), r')
  | (inl e, r') => (inl e, r')
  end.

(** [whence] is 0 for the start, 1 for the cursor, 2 for the end. *)
Definition bufSeek (offset whence : Z) (r : BufReader)
  : (error + Z) * BufReader :=
  let base :=
    if bool_decide (whence = 0) then Some 0
    else if bool_decide (whence = 1) then Some (cursor r)
    else if bool_decide (whence = 2) then Some (Z.of_nat (length (buf r)))
    else None in
  match base with
  | None => (inl (errors.New "invalid whence"), r)
  | Some b =>
      if bool_decide (b + offset < 0) then
        (inl (errors.New "negative position"), r)
      else (inr (b + offset), mkBuf (buf r) (b + offset) (order r))
  end.

#[global] Instance BufReader_Reader : Reader BufReader := {
  ReadInt8 := bufReadInt 1;
  ReadInt16 := bufReadInt 2;
  ReadInt32 := bufReadInt 4;
  ReadInt64 := bufReadInt 8;
  ReadUint8 := bufReadUint 1;
  ReadUint16 := bufReadUint 2;
  ReadUint32 := bufReadUint 4;
  ReadUint64 := bufReadUint 8;
  ReadFloat32 := bufReadUint 4;
  ReadFloat64 := bufReadUint 8;
  ReadBool := bufReadBool;
  ReadBytes := bufReadBytes;
  Seek := bufSeek
}.

(** ** A directive source for the example programs *)

Fixpoint decimalFrom (acc : Z) (s : string) : option Z :=
  match s with
  | EmptyString => Some acc
  | String c s' =>
      let d := Z.of_nat (nat_of_ascii c) - 48 in
      if bool_decide (0 <= d <= 9) then decimalFrom (10 * acc + d) s'
      else None
  end.

(** The tags of the examples: empty, [-] (ignore), [len:N] and
    [func:Name]. *)
Definition exampleParseTag (tag : string) : error + string :=
  if bool_decide (tag = "bad") then inl (errors.New "unknown tag") else inr tag.

Definition exampleReadData (_ : GoType) (_ : Value) (tag : string)
  : error + option fieldReadData :=
  if bool_decide (tag = "") then inr (Some emptyFieldReadData)
  else if bool_decide (tag = "-") then
    inr (Some (mkFieldReadData true None [] "" None))
  else
    match stripPrefix "len:" tag with
    | Some d =>
        match d, decimalFrom 0 d with
        | String _ _, Some n => inr (Some (mkFieldReadData false (Some n) [] "" None))
        | _, _ => inl (errors.New "bad len")
        end
    | None =>
        match stripPrefix "func:" tag with
        | Some f => inr (Some (mkFieldReadData false None [] f None))
        | None => inl (errors.New "bad tag")
        end
    end.

(** ** Example programs *)

Definition exported (name : string) (t : GoType) (tag : string) : StructField :=
  {| Name := name; PkgPath := ""; Type_ := t; Tag := tag |}.

Definition record (fields : list StructField) : TypeDecl BufReader :=
  {| td_underlying := UStruct fields; td_methods := ∅ |}.

Definition tInt32 : GoType := TBasic reflect.Int32.
Definition tUint8 : GoType := TBasic reflect.Uint8.
Definition tUint16 : GoType := TBasic reflect.Uint16.

(** [func (o *Outer) F(r binstruct.Reader) (int32, error)]: reads four
    bytes and leaves the receiver alone. *)
Definition readInt32Method : Method BufReader :=
  {| m_in := [TReader];
     m_out := [tInt32; TError];
     m_call := fun recv r =>
       match ReadInt32 r with
       | (inr v, r') => ([VInt v; VErr None], recv, r')
       | (inl e, r') => ([VInt 0; VErr (Some e)], recv, r')
       end |}.

Definition exampleDecls : Decls BufReader :=
  list_to_map
    [ (("main", "Rec32"), record [exported "V" tInt32 ""]);
      (("main", "Seq3"), record [exported "Data" (TSlice tUint8) "len:3"]);
      (("main", "Seq2"), record [exported "Data" (TSlice tUint8) "len:2"]);
      (("main", "Seq"), record [exported "Data" (TSlice tUint8) ""]);
      (("main", "Arr23"), record [exported "A" (TArray 2 tUint8) "len:3"]);
      (("main", "Arr30"), record [exported "A" (TArray 3 tUint8) "len:0"]);
      (("main", "Arr3"), record [exported "A" (TArray 3 tUint8) ""]);
      (("main", "I8L2"), record [exported "V" (TBasic reflect.Int8) "len:2"]);
      (("main", "I32L3"), record [exported "V" tInt32 "len:3"]);
      (("main", "F32L3"), record [exported "V" (TBasic reflect.Float32) "len:3"]);
      (("main", "IntL3"), record [exported "V" (TBasic reflect.Int) "len:3"]);
      (("main", "Two"),
       record [exported "A" tUint8 ""; exported "B" tUint16 ""]);
      (("main", "Holder"),
       record [exported "H" tUint8 ""; exported "In" (TNamed "main" "Two") ""]);
      (("main", "Inner"), record [exported "X" tInt32 "func:F"]);
      (("main", "Mid"), record [exported "Inner" (TNamed "main" "Inner") ""]);
      (("main", "Outer"),
       {| td_underlying := UStruct [exported "Mid" (TNamed "main" "Mid") ""];
          td_methods := {[ "F" := readInt32Method ]} |});
      (("main", "Hidden"),
       {| td_underlying :=
            UStruct [ {| Name := "x"; PkgPath := "main"; Type_ := tInt32;
                         Tag := "func:F" |} ];
          td_methods := {[ "F" := readInt32Method ]} |});
      (("main", "Any"),
       {| td_underlying :=
            UStruct [exported "X" (TInterface "interface {}") "func:F"];
          td_methods := {[ "F" := readInt32Method ]} |}) ].

(** A fresh record of a declared type at root 0, a little-endian reader over
    [bytes], and [Unmarshal] of a pointer to the record. *)
Definition freshState (t : GoType) (bytes : list byte) : State BufReader :=
  mkState (mkBuf bytes 0 LittleEndian)
          [default VOpaque (zeroValue exampleDecls 8 t)] [].

Definition decodeFresh (t : GoType) (bytes : list byte)
  : Outcome (option error) * State BufReader :=
  Unmarshal exampleDecls string exampleParseTag exampleReadData 8
    (Some (TPtr t, VPtr (Some (mkLoc 0 [])))) (freshState t bytes).

(** A pointer to an [int] at root 0, and the state it lives in. *)
Definition intPointer : Iface :=
  Some (TPtr (TBasic reflect.Int), VPtr (Some (mkLoc 0 []))).

Definition intState : State BufReader :=
  mkState (mkBuf [x01; x02] 0 LittleEndian) [VInt 0] [].

(** Handles and directives of the examples: the record at root 0, its first
    field, a directive with a length, and one that names a routine. *)
Definition rootRecord (t : GoType) : RValue := mkRValue (mkLoc 0 []) t true.

Definition firstField (t : GoType) : RValue := mkRValue (mkLoc 0 [0%nat]) t true.

Definition lengthData (n : Z) : fieldReadData :=
  mkFieldReadData false (Some n) [] "" None.


Definition exampleSetField :=
  setValueToField exampleDecls string exampleParseTag exampleReadData.







(** The array [Arr23] with a declared length of 3: the loop over the two
    elements the array has, the allocation of a third, and its decode. *)
Definition arrayElem (tmpV : RValue) : M BufReader (option error) :=
  exampleSetField 1 (rootRecord (TNamed "main" "Arr23")) tmpV None [].

Definition arrayNew : M BufReader RValue :=
  match elemOf exampleDecls (TArray 2 tUint8) with
  | Some et => reflectNew exampleDecls 1 et
  | None => panic "reflect: Elem of invalid type"
  end.

Definition arrayFilled : State BufReader :=
  snd (arrayLoop exampleDecls arrayElem arrayNew (firstField (TArray 2 tUint8))
         O 2 (freshState (TNamed "main" "Arr23") [x01; x02; x03])).

Definition arrayThird : RValue := mkRValue (mkLoc 3 []) tUint8 true.

(** ** More names for the properties of the engine *)

(** The seeks a directive asks for, as the trace notes them. *)
Definition seekEvents (offsets : list FieldOffset) : list Event :=
  map (fun v => EvSeek (Offset v) (Whence v)) offsets.

(** The kinds decoded by one read of the reader, and the kinds the switch of
    [setValueToField] has a case for. *)
Definition isScalar (k : reflect.Kind) : bool :=
  isSigned k || isUnsigned k
  || match k with
     | reflect.Float32 | reflect.Float64 | reflect.Bool | reflect.String => true
     | _ => false
     end.

Definition isSupported (k : reflect.Kind) : bool :=
  isScalar k
  || match k with
     | reflect.Slice | reflect.Array | reflect.Struct => true
     | _ => false
     end.

(** [func (s *Failing) F(r binstruct.Reader) error], which always fails,
    and [func (s *Odd) F(r binstruct.Reader) int32], which reads a byte and
    has neither of the two accepted result lists. *)
Definition failingMethod : Method BufReader :=
  {| m_in := [TReader];
     m_out := [TError];
     m_call := fun recv r => ([VErr (Some (errors.New "boom"))], recv, r) |}.

Definition oddMethod : Method BufReader :=
  {| m_in := [TReader];
     m_out := [tInt32];
     m_call := fun recv r => ([VInt 0], recv, snd (ReadUint8 r)) |}.

Definition moreDecls : Decls BufReader :=
  list_to_map
    [ (("main", "Skipped"),
       record [exported "A" tUint8 "-"; exported "B" tInt32 "-"]);
      (("main", "Failing"),
       {| td_underlying := UStruct [exported "X" tInt32 "func:F"];
          td_methods := {[ "F" := failingMethod ]} |});
      (("main", "Odd"),
       {| td_underlying := UStruct [exported "X" tInt32 "func:F"];
          td_methods := {[ "F" := oddMethod ]} |}) ].

(** A directive that seeks before the start of the data. *)
Definition badSeekData : fieldReadData :=
  mkFieldReadData false None [ {| Offset := -1; Whence := 0 |} ] "" None.

(** States of the examples that follow: a record of [Skipped], [Failing] or
    [Odd] over two bytes, a slice that already holds an element, and an
    array filled with sevens. *)
Definition skippedState : State BufReader :=
  mkState (mkBuf [x01; x02] 0 LittleEndian) [VStruct [VUint 0; VInt 0]] [].


Definition sliceHolding : State BufReader :=
  mkState (mkBuf [x01; x02; x03] 0 LittleEndian)
    [VStruct [VSlice [VUint 9]]] [].

Definition arrayOfSevens : State BufReader :=
  mkState (mkBuf [x01; x02; x03] 0 LittleEndian)
    [VStruct [VArray [VUint 7; VUint 7; VUint 7]]] [].

(** * Properties *)

Section Properties.

Context {R : Type} `{Reader R}.
Variable decls : Decls R.
Variable TagT : Type.
Variable parseTag : string -> error + TagT.
Variable parseReadDataFromTags :
  GoType -> Value -> TagT -> error + option fieldReadData.

Local Abbreviation setField :=
  (setValueToField decls TagT parseTag parseReadDataFromTags).
Local Abbreviation decode :=
  (Unmarshal decls TagT parseTag parseReadDataFromTags).
Local Abbreviation framed := (Framed (R:=R)).
Local Abbreviation allocates := (Allocates (R:=R)).

Lemma bind_ext {A B} (c : M R A) (k1 k2 : A -> M R B) (s : State R) :
  (forall a s', k1 a s' = k2 a s') -> bind c k1 s = bind c k2 s.
Proof.
  intros Hk. unfold bind. destruct (c s) as [[a| |] s']; auto.
Qed.

(** Repositioning the reader leaves the store alone. *)
Lemma setOffset_heap (offsets : list FieldOffset) (s s' : State R) o :
  setOffset offsets s = (o, s') -> heap s' = heap s.
Proof.
  revert s. induction offsets as [|v rest IH]; intros s Hrun.
  - inversion Hrun; reflexivity.
  - cbn [setOffset] in Hrun. unfold bind, readerCall in Hrun.
    destruct (Seek (Offset v) (Whence v) (rd s)) as [[e|p] r'].
    + inversion Hrun; reflexivity.
    + apply IH in Hrun. exact Hrun.
Qed.

(** Entering [setValueToField] past the ignore flag and the seeks. *)
Ltac enter_field Hi Ho :=
  cbn [setValueToField from_option id]; rewrite Hi; unfold bind at 1;
  rewrite Ho.

Ltac builtin_field Hi Ho Hf :=
  enter_field Hi Ho; rewrite Hf;
  rewrite (bool_decide_eq_true_2 ("" = "")) by reflexivity; cbn [negb].

Lemma setField_ignored fuel sv fv fd parents (s : State R) :
  Ignore fd = true ->
  setField (S fuel) sv fv (Some fd) parents s = (Done None, s).
Proof. intros Hi. cbn [setValueToField from_option id]. rewrite Hi. reflexivity. Qed.


Lemma setField_signed fuel sv fv fd parents (s s1 : State R) :
  isSigned (kindOf decls (rv_type fv)) = true ->
  Ignore fd = false -> FuncName fd = "" ->
  setOffset (Offsets fd) s = (Done None, s1) ->
  setField (S fuel) sv fv (Some fd) parents s
  = (r <- readSigned fd (kindOf decls (rv_type fv)) ;;
     match r with
     | inl e => ret (Some e)
     | inr value => _ <- whenCanSet fv (SetInt decls fv value) ;; ret None
     end) s1.
Proof.
  intros Hk Hi Hf Ho. builtin_field Hi Ho Hf.
  destruct (kindOf decls (rv_type fv)); try discriminate Hk; reflexivity.
Qed.

Ltac width_cases l :=
  destruct (decide (l = 1)) as [->|?]; [reflexivity|];
  destruct (decide (l = 2)) as [->|?]; [reflexivity|];
  destruct (decide (l = 4)) as [->|?]; [reflexivity|];
  destruct (decide (l = 8)) as [->|?]; [reflexivity|];
  rewrite (bool_decide_eq_false_2 (l = 1 \/ l = 2 \/ l = 4 \/ l = 8)) by lia;
  rewrite ?(bool_decide_eq_false_2 (l = 1)), ?(bool_decide_eq_false_2 (l = 2)),
    ?(bool_decide_eq_false_2 (l = 4)), ?(bool_decide_eq_false_2 (l = 8))
    by assumption;
  reflexivity.

Lemma readSigned_resolved fd k :
  isSigned k = true ->
  readSigned (R:=R) fd k
  = match resolvedWidth fd k with
    | Some w => signedRead w
    | None =>
        ret (inl (errors.New "need set tag with len or use int8/int16/int32/int64"))
    end.
Proof.
  intros Hk. unfold readSigned, resolvedWidth, lengthWidth, lengthIs.
  destruct (Length fd) as [l|].
  - destruct k; try discriminate Hk; width_cases l.
  - destruct k; try discriminate Hk; reflexivity.
Qed.

Lemma readUnsigned_resolved fd k :
  isUnsigned k = true ->
  readUnsigned (R:=R) fd k
  = match resolvedWidth fd k with
    | Some w => unsignedRead w
    | None =>
        ret (inl (errors.New "need set tag with len or use uint8/uint16/uint32/uint64"))
    end.
Proof.
  intros Hk. unfold readUnsigned, resolvedWidth, lengthWidth, lengthIs.
  destruct (Length fd) as [l|].
  - destruct k; try discriminate Hk; width_cases l.
  - destruct k; try discriminate Hk; reflexivity.
Qed.

Lemma setField_unsigned fuel sv fv fd parents (s s1 : State R) :
  isUnsigned (kindOf decls (rv_type fv)) = true ->
  Ignore fd = false -> FuncName fd = "" ->
  setOffset (Offsets fd) s = (Done None, s1) ->
  setField (S fuel) sv fv (Some fd) parents s
  = (r <- readUnsigned fd (kindOf decls (rv_type fv)) ;;
     match r with
     | inl e => ret (Some e)
     | inr value => _ <- whenCanSet fv (SetUint decls fv value) ;; ret None
     end) s1.
Proof.
  intros Hk Hi Hf Ho. builtin_field Hi Ho Hf.
  destruct (kindOf decls (rv_type fv)); try discriminate Hk; reflexivity.
Qed.

Lemma integer_field_signed fuel sv fv fd parents (s s1 : State R) :
  isSigned (kindOf decls (rv_type fv)) = true ->
  Ignore fd = false -> FuncName fd = "" ->
  setOffset (Offsets fd) s = (Done None, s1) ->
  match resolvedWidth fd (kindOf decls (rv_type fv)) with
  | Some w =>
      setField (S fuel) sv fv (Some fd) parents s
      = (r <- signedRead w ;;
         match r with
         | inl e => ret (Some e)
         | inr value => _ <- whenCanSet fv (SetInt decls fv value) ;; ret None
         end) s1
  | None =>
      setField (S fuel) sv fv (Some fd) parents s
      = (Done (Some (errors.New
                       "need set tag with len or use int8/int16/int32/int64")),
         s1)
      /\ heap s1 = heap s
  end.
Proof.
  intros Hk Hi Hf Ho.
  rewrite (setField_signed fuel sv fv fd parents s s1) by assumption.
  rewrite readSigned_resolved by assumption.
  destruct (resolvedWidth fd (kindOf decls (rv_type fv))); [reflexivity|].
  split; [reflexivity|]. eapply setOffset_heap, Ho.
Qed.

Lemma integer_field_unsigned fuel sv fv fd parents (s s1 : State R) :
  isUnsigned (kindOf decls (rv_type fv)) = true ->
  Ignore fd = false -> FuncName fd = "" ->
  setOffset (Offsets fd) s = (Done None, s1) ->
  match resolvedWidth fd (kindOf decls (rv_type fv)) with
  | Some w =>
      setField (S fuel) sv fv (Some fd) parents s
      = (r <- unsignedRead w ;;
         match r with
         | inl e => ret (Some e)
         | inr value => _ <- whenCanSet fv (SetUint decls fv value) ;; ret None
         end) s1
  | None =>
      setField (S fuel) sv fv (Some fd) parents s
      = (Done (Some (errors.New
                       "need set tag with len or use uint8/uint16/uint32/uint64")),
         s1)
      /\ heap s1 = heap s
  end.
Proof.
  intros Hk Hi Hf Ho.
  rewrite (setField_unsigned fuel sv fv fd parents s s1) by assumption.
  rewrite readUnsigned_resolved by assumption.
  destruct (resolvedWidth fd (kindOf decls (rv_type fv))); [reflexivity|].
  split; [reflexivity|]. eapply setOffset_heap, Ho.
Qed.

(** A length outside 1, 2, 4 and 8 resolves no width. *)
Lemma lengthWidth_other fd l :
  Length fd = Some l -> l <> 1 -> l <> 2 -> l <> 4 -> l <> 8 ->
  lengthWidth fd = None.
Proof.
  intros Hl ? ? ? ?. unfold lengthWidth. rewrite Hl.
  rewrite bool_decide_eq_false_2 by lia. reflexivity.
Qed.

Lemma resolvedWidth_no_length fd k :
  lengthWidth fd = None -> resolvedWidth fd k = typeWidth k.
Proof. intros Hw. unfold resolvedWidth. rewrite Hw. reflexivity. Qed.

(** A field whose kind is a fixed-width integer or a float is decoded the
    same with a length that resolves no width as with no length. *)
Lemma fixed_width_ignores_length fuel sv fv fd parents (s : State R) :
  (typeWidth (kindOf decls (rv_type fv)) <> None
   \/ kindOf decls (rv_type fv) = reflect.Float32
   \/ kindOf decls (rv_type fv) = reflect.Float64) ->
  lengthWidth fd = None ->
  setField (S fuel) sv fv (Some fd) parents s
  = setField (S fuel) sv fv (Some (withLength fd None)) parents s.
Proof.
  intros Hk Hw.
  cbn [setValueToField from_option id withLength Ignore Offsets FuncName
       ElemFieldData].
  destruct (Ignore fd); [reflexivity|].
  apply bind_ext. intros [e|] s1; [reflexivity|].
  destruct (negb (bool_decide (FuncName fd = ""))); [reflexivity|].
  assert (Hs : forall k, isSigned k = true -> typeWidth k <> None ->
             readSigned (R:=R) fd k
             = readSigned (withLength fd None) k).
  { intros k Hsk Htw. rewrite !readSigned_resolved by assumption.
    rewrite !resolvedWidth_no_length by (assumption || reflexivity).
    reflexivity. }
  assert (Hu : forall k, isUnsigned k = true -> typeWidth k <> None ->
             readUnsigned (R:=R) fd k
             = readUnsigned (withLength fd None) k).
  { intros k Hsk Htw. rewrite !readUnsigned_resolved by assumption.
    rewrite !resolvedWidth_no_length by (assumption || reflexivity).
    reflexivity. }
  destruct Hk as [Hk | [Hk | Hk]].
  - destruct (kindOf decls (rv_type fv)) eqn:Ek; try (exfalso; apply Hk; reflexivity);
      first [ rewrite Hs by (reflexivity || discriminate); reflexivity
            | rewrite Hu by (reflexivity || discriminate); reflexivity ].
  - rewrite Hk. reflexivity.
  - rewrite Hk. reflexivity.
Qed.

Lemma setField_slice_no_length fuel sv fv fd parents (s s1 : State R) :
  kindOf decls (rv_type fv) = reflect.Slice ->
  Ignore fd = false -> FuncName fd = "" -> Length fd = None ->
  setOffset (Offsets fd) s = (Done None, s1) ->
  setField (S fuel) sv fv (Some fd) parents s
  = (Done (Some (errors.New "need set tag with len for slice")), s1)
  /\ heap s1 = heap s.
Proof.
  intros Hk Hi Hf Hl Ho. split; [|eapply setOffset_heap, Ho].
  builtin_field Hi Ho Hf. rewrite Hk, Hl. reflexivity.
Qed.

Lemma setField_array fuel sv fv fd parents (s s1 : State R) :
  kindOf decls (rv_type fv) = reflect.Array ->
  Ignore fd = false -> FuncName fd = "" ->
  setOffset (Offsets fd) s = (Done None, s1) ->
  setField (S fuel) sv fv (Some fd) parents s
  = arrayLoop decls
      (fun tmpV => setField fuel sv tmpV (ElemFieldData fd) parents)
      (match elemOf decls (rv_type fv) with
       | Some et => reflectNew decls fuel et
       | None => panic "reflect: Elem of invalid type"
       end)
      fv O (Z.to_nat (arrLenOf decls fd fv)) s1.
Proof.
  intros Hk Hi Hf Ho. builtin_field Hi Ho Hf. rewrite Hk. reflexivity.
Qed.

Lemma arrLenOf_zero fd fv :
  arrLenOf decls (withLength fd (Some 0)) fv
  = Z.of_nat (arrayLen decls (rv_type fv)).
Proof. reflexivity. Qed.

Lemma arrLenOf_absent fd fv :
  arrLenOf decls (withLength fd None) fv
  = Z.of_nat (arrayLen decls (rv_type fv)).
Proof. reflexivity. Qed.

Lemma array_zero_length_general fuel sv fv fd parents (s : State R) :
  kindOf decls (rv_type fv) = reflect.Array ->
  setField (S fuel) sv fv (Some (withLength fd (Some 0))) parents s
  = setField (S fuel) sv fv (Some (withLength fd None)) parents s.
Proof.
  intros Hk.
  cbn [setValueToField from_option id withLength Ignore Offsets FuncName
       ElemFieldData].
  destruct (Ignore fd); [reflexivity|].
  apply bind_ext. intros [e|] s1; [reflexivity|].
  destruct (negb (bool_decide (FuncName fd = ""))); [reflexivity|].
  rewrite Hk. reflexivity.
Qed.

(** ** Delegation *)










(** ** The store *)

Lemma alter_id_at {A} (f : A -> A) (i : nat) (l : list A) :
  (forall x, l !! i = Some x -> f x = x) -> alter f i l = l.
Proof.
  revert i. induction l as [|a l IH]; intros i Hf; [reflexivity|].
  destruct i as [|i]; simpl.
  - f_equal. apply Hf. reflexivity.
  - f_equal. apply IH. intros x Hx. apply Hf. exact Hx.
Qed.

Lemma alter_ext_at {A} (f g : A -> A) (i : nat) (l : list A) :
  (forall x, l !! i = Some x -> f x = g x) -> alter f i l = alter g i l.
Proof.
  revert i. induction l as [|a l IH]; intros i Hf; [reflexivity|].
  destruct i as [|i]; simpl.
  - f_equal. apply Hf. reflexivity.
  - f_equal. apply IH. intros x Hx. apply Hf. exact Hx.
Qed.

Lemma alter_alter {A} (f g : A -> A) (i : nat) (l : list A) :
  alter f i (alter g i l) = alter (fun x => f (g x)) i l.
Proof.
  revert i. induction l as [|a l IH]; intros i; [reflexivity|].
  destruct i as [|i]; simpl; [reflexivity|]. f_equal. apply IH.
Qed.

(** A write under a path that leads nowhere changes nothing. *)
Lemma set_path_nowhere (v : Value) (p : list nat) (w : Value) :
  get_path v p = None -> set_path v p w = v.
Proof.
  revert v. induction p as [|i p IH]; intros v Hget; [discriminate|].
  destruct v; try reflexivity; simpl in *; f_equal; apply alter_id_at;
    intros x Hx; rewrite Hx in Hget; apply IH; exact Hget.
Qed.

(** Writing back what is there changes nothing. *)
Lemma set_path_same (v : Value) (p : list nat) (u : Value) :
  get_path v p = Some u -> set_path v p u = v.
Proof.
  revert v. induction p as [|i p IH]; intros v Hget.
  - simpl in *. congruence.
  - destruct v; try reflexivity; simpl in *; f_equal; apply alter_id_at;
      intros x Hx; rewrite Hx in Hget; apply IH; exact Hget.
Qed.

Lemma set_path_twice (v : Value) (p : list nat) (w1 w2 : Value) :
  set_path (set_path v p w1) p w2 = set_path v p w2.
Proof.
  revert v. induction p as [|i p IH]; intros v; [reflexivity|].
  destruct v; try reflexivity; simpl; f_equal; rewrite alter_alter;
    apply alter_ext_at; intros x _; apply IH.
Qed.

(** A write deeper under a path is a write at the path. *)
Lemma set_path_deeper (v : Value) (p q : list nat) (x : Value) :
  exists w, set_path v (p ++ q) x = set_path v p w.
Proof.
  destruct (get_path v p) as [u|] eqn:Hget.
  - exists (set_path u q x). revert v Hget.
    induction p as [|i p IH]; intros v Hget.
    + simpl in *. congruence.
    + destruct v; try discriminate Hget; simpl in *; f_equal;
        apply alter_ext_at; intros y Hy; rewrite Hy in Hget; apply IH;
        exact Hget.
  - exists VOpaque. rewrite (set_path_nowhere v p) by assumption.
    apply set_path_nowhere. revert v Hget.
    induction p as [|i p IH]; intros v Hget; [discriminate|].
    destruct v; try reflexivity; simpl in *;
      destruct (_ !! i) as [y|]; try reflexivity; apply IH; exact Hget.
Qed.

Lemma heap_set_length (h : Heap) (l : Loc) (w : Value) :
  length (heap_set h l w) = length h.
Proof. unfold heap_set. apply length_alter. Qed.

Lemma heap_set_same (h : Heap) (l : Loc) :
  heap_set h l (default VOpaque (heap_get h l)) = h.
Proof.
  unfold heap_set, heap_get. apply alter_id_at. intros v Hv. rewrite Hv.
  destruct (get_path v (loc_path l)) as [u|] eqn:Hget; simpl.
  - apply set_path_same. exact Hget.
  - apply set_path_nowhere. exact Hget.
Qed.

Lemma heap_set_twice (h : Heap) (l : Loc) (w1 w2 : Value) :
  heap_set (heap_set h l w1) l w2 = heap_set h l w2.
Proof.
  unfold heap_set. rewrite alter_alter. apply alter_ext_at.
  intros v _. apply set_path_twice.
Qed.

Lemma heap_set_app_l (h e : Heap) (l : Loc) (w : Value) :
  (loc_root l < length h)%nat ->
  heap_set (h ++ e) l w = heap_set h l w ++ e.
Proof. intros Hl. unfold heap_set. apply alter_app_l. exact Hl. Qed.

Lemma heap_set_app_r (h e : Heap) (l : Loc) (w : Value) :
  (length h <= loc_root l)%nat ->
  exists e', heap_set (h ++ e) l w = h ++ e'.
Proof.
  intros Hl. unfold heap_set. rewrite alter_app_r_alt by exact Hl. eauto.
Qed.

Lemma frame_refl l h : Frame l h h.
Proof.
  exists (default VOpaque (heap_get h l)), []. rewrite heap_set_same.
  symmetry. apply app_nil_r.
Qed.

Lemma frame_store l h x : Frame l h (heap_set h l x).
Proof. exists x, []. symmetry. apply app_nil_r. Qed.

Lemma frame_length l h h' : Frame l h h' -> (length h <= length h')%nat.
Proof.
  intros (w & e & ->). rewrite length_app, heap_set_length. lia.
Qed.

Lemma frame_trans l h h1 h2 :
  (loc_root l < length h)%nat ->
  Frame l h h1 -> Frame l h1 h2 -> Frame l h h2.
Proof.
  intros Hl (w1 & e1 & ->) (w2 & e2 & ->).
  exists w2, (e1 ++ e2).
  rewrite heap_set_app_l by (rewrite heap_set_length; exact Hl).
  rewrite heap_set_twice. symmetry. apply app_assoc.
Qed.

Lemma frame_deeper r p q h h' :
  Frame (mkLoc r (p ++ q)) h h' -> Frame (mkLoc r p) h h'.
Proof.
  intros (w & e & ->). unfold heap_set; simpl.
  destruct (h !! r) as [v|] eqn:Hv.
  - destruct (set_path_deeper v p q w) as (w' & Hw').
    exists w', e. f_equal. apply alter_ext_at. intros x Hx. simpl in Hx.
    rewrite Hv in Hx. inversion Hx; subst x. exact Hw'.
  - assert (Hid : forall f : Value -> Value, alter f r h = h).
    { intros f. apply alter_id_at. intros x Hx. rewrite Hv in Hx.
      discriminate. }
    exists w, e. unfold heap_set; simpl. rewrite !Hid. reflexivity.
Qed.

Lemma frame_alloc l h v : Frame l h (h ++ [v]).
Proof.
  exists (default VOpaque (heap_get h l)), [v]. rewrite heap_set_same.
  reflexivity.
Qed.

(** What happens under a value allocated after [h] is outside [h]. *)
Lemma frame_fresh l r p h v h' :
  (length h <= r)%nat ->
  Frame (mkLoc r p) (h ++ [v]) h' -> Frame l h h'.
Proof.
  intros Hr (w & e & ->).
  destruct (heap_set_app_r h [v] (mkLoc r p) w Hr) as (e' & ->).
  exists (default VOpaque (heap_get h l)), (e' ++ e). rewrite heap_set_same.
  symmetry. apply app_assoc.
Qed.

(** A sibling of the place written keeps its value. *)
Lemma get_path_sibling (v : Value) (p q : list nat) (i j : nat) (w : Value) :
  i <> j ->
  get_path (set_path v (p ++ [i]) w) (p ++ j :: q) = get_path v (p ++ j :: q).
Proof.
  intros Hij. revert v. induction p as [|k p IH]; intros v.
  - destruct v; try reflexivity; simpl;
      rewrite list_lookup_alter_ne by exact Hij; reflexivity.
  - destruct v; try reflexivity; simpl; rewrite list_lookup_alter_eq;
      destruct (_ !! k) as [y|]; simpl; try reflexivity; apply IH.
Qed.

Lemma frame_sibling r p i j q h h' :
  i <> j -> (r < length h)%nat ->
  Frame (mkLoc r (p ++ [i])) h h' ->
  heap_get h' (mkLoc r (p ++ j :: q)) = heap_get h (mkLoc r (p ++ j :: q)).
Proof.
  intros Hij Hr (w & e & ->). unfold heap_get, heap_set; simpl.
  rewrite lookup_app_l by (rewrite length_alter; exact Hr).
  rewrite list_lookup_alter_eq. destruct (h !! r) as [v|]; simpl; [|reflexivity].
  apply get_path_sibling. exact Hij.
Qed.

(** ** Every engine step writes under its field or into fresh values *)

Lemma framed_ret {A} l (a : A) : framed l (ret (R:=R) a).
Proof. intros s o s' _ Hrun. inversion Hrun; subst. apply frame_refl. Qed.

Lemma framed_panic {A} l msg : framed l (panic (R:=R) (A:=A) msg).
Proof. intros s o s' _ Hrun. inversion Hrun; subst. apply frame_refl. Qed.

Lemma framed_bind {A B} l (c : M R A) (k : A -> M R B) :
  framed l c -> (forall a, framed l (k a)) -> framed l (bind c k).
Proof.
  intros Hc Hk s o s' Hl Hrun. unfold bind in Hrun.
  destruct (c s) as [[a|msg|] s1] eqn:Hcs.
  - pose proof (Hc _ _ _ Hl Hcs) as F1.
    eapply frame_trans; [exact Hl|exact F1|].
    eapply Hk; [|exact Hrun]. pose proof (frame_length _ _ _ F1). lia.
  - inversion Hrun; subst. eapply Hc; eauto.
  - inversion Hrun; subst. eapply Hc; eauto.
Qed.

Lemma framed_readerCall {A} l ev (op : R -> A * R) :
  framed l (readerCall ev op).
Proof.
  intros s o s' _ Hrun. unfold readerCall in Hrun.
  destruct (op (rd s)) as [a r']. inversion Hrun; subst. apply frame_refl.
Qed.

Lemma framed_load l v : framed l (load v).
Proof.
  intros s o s' _ Hrun. unfold load in Hrun.
  destruct (heap_get (heap s) (rv_loc v)); inversion Hrun; subst;
    apply frame_refl.
Qed.

Lemma framed_store v x : framed (rv_loc v) (store v x).
Proof.
  intros s o s' _ Hrun. inversion Hrun; subst. apply frame_store.
Qed.

Lemma framed_store_deeper r p q t b x :
  framed (mkLoc r p) (store (R:=R) (mkRValue (mkLoc r (p ++ q)) t b) x).
Proof.
  intros s o s' _ Hrun. inversion Hrun; subst.
  eapply frame_deeper. apply frame_store.
Qed.

Lemma framed_whenCanSet l fv (c : M R unit) :
  framed l c -> framed l (whenCanSet fv c).
Proof. intros Hc. unfold whenCanSet. destruct (rv_canset fv); [exact Hc|apply framed_ret]. Qed.

Lemma framed_setOffset l offsets : framed l (setOffset (R:=R) offsets).
Proof.
  intros s o s' _ Hrun. apply setOffset_heap in Hrun. rewrite Hrun.
  apply frame_refl.
Qed.

Lemma framed_Call l c f m :
  receiversKept decls -> MethodByName decls c f = Some m ->
  framed l (Call c f m).
Proof.
  intros Hkept Hm s o s' _ Hrun. unfold Call in Hrun.
  unfold MethodByName in Hm. destruct (rv_type c); try discriminate Hm.
  destruct (decls !! (pkg, name)) as [d|] eqn:Hd; [|discriminate Hm].
  pose proof (Hkept _ _ _ _ (default VOpaque (heap_get (heap s) (rv_loc c)))
                (rd s) Hd Hm) as Hrecv.
  destruct (m_call m _ (rd s)) as [[rets recv'] r']. simpl in Hrecv.
  inversion Hrun; subst. simpl. rewrite heap_set_same. apply frame_refl.
Qed.

Lemma framed_callFunc f c fv :
  receiversKept decls -> framed (rv_loc fv) (callFunc decls f c fv).
Proof.
  intros Hkept. unfold callFunc.
  destruct (MethodByName decls c f) as [m|] eqn:Hm; [|apply framed_ret].
  destruct (_ && _); [|apply framed_ret].
  apply framed_bind; [apply framed_Call; assumption|]. intros rets.
  destruct (_ && _).
  { destruct (asError _); apply framed_ret. }
  destruct (_ && _); [|apply framed_ret].
  destruct (asError _); [apply framed_ret|].
  apply framed_bind; [|intros; apply framed_ret].
  destruct (rv_canset fv); [apply framed_store|apply framed_ret].
Qed.

Lemma framed_parentLoop f fv parents n after :
  receiversKept decls -> framed (rv_loc fv) after ->
  framed (rv_loc fv) (parentLoop decls f fv parents n after).
Proof.
  intros Hkept Hafter. induction n as [|i IH]; [exact Hafter|].
  cbn [parentLoop]. destruct (parents !! i); [|apply framed_panic].
  apply framed_bind; [apply framed_callFunc; assumption|]. intros res.
  destruct (snd res); [apply framed_ret|].
  destruct (fst res); [apply framed_ret|exact IH].
Qed.

Lemma framed_delegate f sv fv parents :
  receiversKept decls -> framed (rv_loc fv) (delegate decls f sv fv parents).
Proof.
  intros Hkept. unfold delegate.
  apply framed_bind; [apply framed_callFunc; assumption|]. intros r.
  destruct (snd r); [apply framed_ret|].
  destruct (negb (fst r)); [|apply framed_ret].
  apply framed_parentLoop; [assumption|apply framed_ret].
Qed.

Lemma framed_appendSet fv tmpV : framed (rv_loc fv) (appendSet (R:=R) fv tmpV).
Proof.
  unfold appendSet. apply framed_bind; [apply framed_load|]. intros x.
  apply framed_bind; [apply framed_load|]. intros cur. apply framed_store.
Qed.

Lemma framed_indexSet fv tmpV i : framed (rv_loc fv) (indexSet decls fv tmpV i).
Proof.
  unfold indexSet. destruct (bool_decide _); [|apply framed_panic].
  apply framed_bind; [apply framed_load|]. intros x.
  destruct (rv_loc fv) as [r p]. apply framed_store_deeper.
Qed.

Lemma reflectNew_allocates fuel t : allocates (reflectNew decls fuel t).
Proof.
  intros s o s' Hrun. unfold reflectNew in Hrun.
  destruct (zeroValue decls fuel t) as [v|]; inversion Hrun; subst.
  - left. eauto.
  - right. split; [discriminate|reflexivity].
Qed.

Lemma panic_allocates msg : allocates (panic (R:=R) msg).
Proof.
  intros s o s' Hrun. inversion Hrun; subst. right.
  split; [discriminate|reflexivity].
Qed.

(** One element: allocated fresh, decoded under itself. *)
Lemma framed_element {B} l (dec : RValue -> M R (option error)) new
    (k : RValue -> option error -> M R B) :
  allocates new ->
  (forall tmpV, framed (rv_loc tmpV) (dec tmpV)) ->
  (forall tmpV err, framed l (k tmpV err)) ->
  framed l (tmpV <- new ;; err <- dec tmpV ;; k tmpV err).
Proof.
  intros Hnew Hdec Hk s o s' Hl Hrun. unfold bind in Hrun.
  destruct (new s) as [o1 s1] eqn:Hn.
  destruct (Hnew _ _ _ Hn) as [(v & t & -> & Hh) | [Hnd Hh]].
  - destruct (dec _ s1) as [o2 s2] eqn:Hd.
    assert (F2 : Frame l (heap s) (heap s2)).
    { eapply (frame_fresh l (length (heap s)) [] (heap s) v); [reflexivity|].
      rewrite <- Hh.
      apply (Hdec (mkRValue (mkLoc (length (heap s)) []) t true) s1 o2 s2);
        [|exact Hd].
      rewrite Hh, length_app. simpl. lia. }
    destruct o2 as [err|msg|]; try (inversion Hrun; subst; exact F2).
    eapply frame_trans; [exact Hl|exact F2|].
    eapply Hk; [|exact Hrun]. pose proof (frame_length _ _ _ F2). lia.
  - destruct o1 as [x|msg|]; [exfalso; eapply Hnd; reflexivity| |];
      inversion Hrun; subst; rewrite Hh; apply frame_refl.
Qed.

Lemma framed_sliceLoop dec new fv n :
  allocates new ->
  (forall tmpV, framed (rv_loc tmpV) (dec tmpV)) ->
  framed (rv_loc fv) (sliceLoop dec new fv n).
Proof.
  intros Hnew Hdec. induction n as [|n IH]; [apply framed_ret|].
  cbn [sliceLoop]. apply framed_element; try assumption.
  intros tmpV [e|]; [apply framed_ret|].
  apply framed_bind; [|intros; exact IH].
  apply framed_whenCanSet, framed_appendSet.
Qed.

Lemma framed_arrayLoop dec new fv i n :
  allocates new ->
  (forall tmpV, framed (rv_loc tmpV) (dec tmpV)) ->
  framed (rv_loc fv) (arrayLoop decls dec new fv i n).
Proof.
  intros Hnew Hdec. revert i. induction n as [|n IH]; intros i;
    [apply framed_ret|].
  cbn [arrayLoop]. apply framed_element; try assumption.
  intros tmpV [e|]; [apply framed_ret|].
  apply framed_bind; [|intros; apply IH].
  apply framed_whenCanSet, framed_indexSet.
Qed.

Lemma framed_unmarshalFields setF sv parents i fields :
  (forall fv fd, framed (rv_loc fv) (setF sv fv fd parents)) ->
  framed (rv_loc sv)
    (unmarshalFields TagT parseTag parseReadDataFromTags setF sv parents i
       fields).
Proof.
  intros HsetF. revert i. induction fields as [|f rest IH]; intros i;
    [apply framed_ret|].
  cbn [unmarshalFields]. destruct (parseTag (Tag f)); [apply framed_ret|].
  apply framed_bind; [apply framed_load|]. intros cur.
  destruct (parseReadDataFromTags _ cur _); [apply framed_ret|].
  apply framed_bind.
  - pose proof (HsetF (Field sv i f) o) as Hf. unfold Field in Hf |- *.
    destruct (rv_loc sv) as [r p]. simpl in *.
    intros s o' s' Hl Hrun. eapply frame_deeper. eapply Hf; eauto.
  - intros [e|]; [apply framed_ret|apply IH].
Qed.

Lemma framed_unmarshalWith setF t l parents :
  (forall sv fv fd ps, framed (rv_loc fv) (setF sv fv fd ps)) ->
  framed l
    (unmarshalWith decls TagT parseTag parseReadDataFromTags setF
       (Some (t, VPtr (Some l))) parents).
Proof.
  intros HsetF. unfold unmarshalWith.
  destruct (_ || _); [apply framed_ret|].
  destruct (elemOf decls t) as [et|]; [|apply framed_panic].
  destruct (underlyingOf decls et); [|apply framed_panic].
  apply (framed_unmarshalFields setF (mkRValue l et true)). intros fv fd.
  apply HsetF.
Qed.

(** The frame of [setValueToField]: whatever the outcome, the store it
    leaves is the one it found with the field overwritten and fresh values
    added. *)
Lemma framed_setField fuel :
  receiversKept decls ->
  forall sv fv fd parents, framed (rv_loc fv) (setField fuel sv fv fd parents).
Proof.
  intros Hkept. induction fuel as [|fuel IH]; intros sv fv fd parents.
  - intros s o s' _ Hrun. inversion Hrun; subst. apply frame_refl.
  - cbn [setValueToField]. destruct (Ignore _); [apply framed_ret|].
    apply framed_bind; [apply framed_setOffset|]. intros [e|];
      [apply framed_ret|].
    destruct (negb _); [apply framed_delegate; assumption|].
    assert (Hnew : allocates
                     match elemOf decls (rv_type fv) with
                     | Some et => reflectNew decls fuel et
                     | None => panic "reflect: Elem of invalid type"
                     end).
    { destruct (elemOf decls (rv_type fv));
        [apply reflectNew_allocates|apply panic_allocates]. }
    destruct (kindOf decls (rv_type fv));
      try apply framed_ret;
      try (apply framed_bind;
           [first [apply framed_readerCall
                  | unfold readSigned, readUnsigned;
                    repeat (destruct (_ || _); [apply framed_readerCall|]);
                    apply framed_ret]
           | intros [e|x]; [apply framed_ret|];
             apply framed_bind; [|intros; apply framed_ret];
             apply framed_whenCanSet, framed_store ]).
    + (* array *)
      apply framed_arrayLoop; [exact Hnew|]. intros tmpV. apply IH.
    + (* slice *)
      destruct (Length _); [|apply framed_ret].
      apply framed_sliceLoop; [exact Hnew|]. intros tmpV. apply IH.
    + (* string *)
      destruct (Length _); [|apply framed_ret].
      apply framed_bind; [apply framed_readerCall|]. intros [e|[n b]];
        [apply framed_ret|].
      apply framed_bind; [|intros; apply framed_ret].
      apply framed_whenCanSet, framed_store.
    + (* struct *)
      destruct (rv_canset fv); [|apply framed_panic].
      apply framed_bind; [|intros [e|]; apply framed_ret].
      apply framed_unmarshalWith. intros sv' fv' fd' ps. apply IH.
Qed.

(** ** The loop of [unmarshal] *)

Local Abbreviation fieldsFrom :=
  (unmarshalFields TagT parseTag parseReadDataFromTags).



(** ** A routine that returns the field's value *)


(** ** The loop of the array case *)

Lemma indexSet_inside fv tmpV i (s : State R) :
  (i < arrayLen decls (rv_type fv))%nat ->
  indexSet decls fv tmpV i s
  = (Done tt,
     mkState (rd s)
       (heap_set (heap s)
          (mkLoc (loc_root (rv_loc fv)) (loc_path (rv_loc fv) ++ [i]))
          (default VOpaque (heap_get (heap s) (rv_loc tmpV))))
       (trace s)).
Proof.
  intros Hi. unfold indexSet. rewrite bool_decide_eq_true_2 by exact Hi.
  unfold bind, load, store.
  destruct (heap_get (heap s) (rv_loc tmpV)); reflexivity.
Qed.

Lemma indexSet_outside fv tmpV i (s : State R) :
  (arrayLen decls (rv_type fv) <= i)%nat ->
  indexSet decls fv tmpV i s
  = (Panicked "reflect: array index out of range", s).
Proof.
  intros Hi. unfold indexSet. rewrite bool_decide_eq_false_2 by lia.
  reflexivity.
Qed.

Lemma arrayLoop_app dec new fv i n m (s s1 : State R) :
  arrayLoop decls dec new fv i n s = (Done None, s1) ->
  arrayLoop decls dec new fv i (n + m) s
  = arrayLoop decls dec new fv (i + n) m s1.
Proof.
  revert i s. induction n as [|n IH]; intros i s Hrun.
  - inversion Hrun; subst. rewrite Nat.add_0_r. reflexivity.
  - cbn [arrayLoop Nat.add] in *. unfold bind in *.
    destruct (new s) as [[tmpV|msg|] sa]; try discriminate Hrun.
    destruct (dec tmpV sa) as [[[e|]|msg|] sb]; try discriminate Hrun.
    destruct (whenCanSet fv (indexSet decls fv tmpV i) sb) as [[u|msg|] sc];
      try discriminate Hrun.
    rewrite (IH _ _ Hrun). f_equal. lia.
Qed.

(** Past the static length, the first element that decodes is written
    outside the array: the loop panics. *)
Lemma arrayLoop_overrun dec new fv n extra tmpV (s s1 s2 s3 : State R) :
  rv_canset fv = true ->
  arrayLen decls (rv_type fv) = n ->
  arrayLoop decls dec new fv O n s = (Done None, s1) ->
  new s1 = (Done tmpV, s2) ->
  dec tmpV s2 = (Done None, s3) ->
  arrayLoop decls dec new fv O (n + S extra) s
  = (Panicked "reflect: array index out of range", s3).
Proof.
  intros Hset Hlen Hrun Hnew Hdec.
  rewrite (arrayLoop_app _ _ _ _ _ _ _ _ Hrun). cbn [arrayLoop Nat.add].
  unfold bind. rewrite Hnew, Hdec. unfold whenCanSet. rewrite Hset.
  rewrite indexSet_outside by lia. reflexivity.
Qed.

(** ** Nested records *)

Local Abbreviation decodeRecord :=
  (unmarshal decls TagT parseTag parseReadDataFromTags).

Lemma unmarshal_record fuel t l parents fields (s : State R) :
  underlyingOf decls t = UStruct fields ->
  decodeRecord fuel (Some (TPtr t, VPtr (Some l))) parents s
  = fieldsFrom (setField fuel) (mkRValue l t true) parents O fields s.
Proof.
  intros Hu. unfold unmarshal, unmarshalWith. cbn. rewrite Hu. reflexivity.
Qed.


(** * The claims *)

(** ** The entry point *)

(** C4, as amended: a nil argument, an argument that is not a pointer, and a
    nil pointer are refused with the [InvalidUnmarshalError] of the
    argument's type, and the machine state is left as it was: the reader is
    not read, not repositioned, and nothing is noted in the trace. *)
Theorem Unmarshal_invalid_target (fuel : nat) (v : Iface) (s : State R) :
  invalidTarget decls v ->
  decode fuel v s = (Done (Some (errors.InvalidUnmarshalError (TypeOf v))), s).
Proof.
  unfold Unmarshal, unmarshal, unmarshalWith, invalidTarget.
  destruct v as [[t pv]|]; [|reflexivity].
  intros [Hk | Hnil]; simpl.
  - rewrite bool_decide_eq_false_2 by assumption. reflexivity.
  - rewrite Hnil, orb_true_r. reflexivity.
Qed.

(** ** Delegation *)



(** ** Integer widths *)

(** C2, as amended: an integer field is read at the narrower of the width
    its directive length selects (1, 2, 4 or 8 bytes) and the width its type
    fixes; with no length a fixed-width type is read at its own width (a
    signed 32-bit field over 01 00 00 00, little-endian, decodes to 1); and
    when neither resolves a width the decode of the field fails with the
    need set tag with len error, the store being left as it was. *)
Theorem integer_width_resolution fuel sv fv fd parents (s s1 : State R) :
  Ignore fd = false -> FuncName fd = "" ->
  setOffset (Offsets fd) s = (Done None, s1) ->
  (isSigned (kindOf decls (rv_type fv)) = true ->
   match resolvedWidth fd (kindOf decls (rv_type fv)) with
   | Some w =>
       setField (S fuel) sv fv (Some fd) parents s
       = (r <- signedRead w ;;
          match r with
          | inl e => ret (Some e)
          | inr value => _ <- whenCanSet fv (SetInt decls fv value) ;; ret None
          end) s1
   | None =>
       setField (S fuel) sv fv (Some fd) parents s
       = (Done (Some (errors.New
                        "need set tag with len or use int8/int16/int32/int64")),
          s1)
       /\ heap s1 = heap s
   end)
  /\ (isUnsigned (kindOf decls (rv_type fv)) = true ->
      match resolvedWidth fd (kindOf decls (rv_type fv)) with
      | Some w =>
          setField (S fuel) sv fv (Some fd) parents s
          = (r <- unsignedRead w ;;
             match r with
             | inl e => ret (Some e)
             | inr value =>
                 _ <- whenCanSet fv (SetUint decls fv value) ;; ret None
             end) s1
      | None =>
          setField (S fuel) sv fv (Some fd) parents s
          = (Done (Some (errors.New
                           "need set tag with len or use uint8/uint16/uint32/uint64")),
             s1)
          /\ heap s1 = heap s
      end)
  /\ (forall k, Length fd = None -> resolvedWidth fd k = typeWidth k)
  /\ (forall k l,
         Length fd = Some l -> l = 1 \/ l = 2 \/ l = 4 \/ l = 8 ->
         resolvedWidth fd k
         = Some match typeWidth k with
                | Some w => Z.min l w
                | None => l
                end)
  /\ decodeFresh (TNamed "main" "Rec32") [x01; x00; x00; x00]
     = (Done None,
        mkState (mkBuf [x01; x00; x00; x00] 4 LittleEndian)
          [VStruct [VInt 1]] [EvReadInt32]).
Proof.
  intros Hi Hf Ho. split; [|split; [|split; [|split]]].
  - intros Hk. apply integer_field_signed; assumption.
  - intros Hk. apply integer_field_unsigned; assumption.
  - intros k Hl. unfold resolvedWidth, lengthWidth. rewrite Hl. reflexivity.
  - intros k l Hl Hw. unfold resolvedWidth, lengthWidth. rewrite Hl.
    rewrite bool_decide_eq_true_2 by exact Hw.
    destruct (typeWidth k); reflexivity.
  - vm_compute. reflexivity.
Qed.

(** C6, as amended: a length that is present and is none of 1, 2, 4 and 8
    makes the decode of a generic-width integer field ([int], [uint]) fail
    with the need set tag with len error, nothing being read or written; a
    fixed-width integer field and a float field are decoded with such a
    length exactly as with no length, at the width of their type. *)
Theorem length_outside_widths fuel sv fv fd parents (s s1 : State R) l :
  Length fd = Some l -> l <> 1 -> l <> 2 -> l <> 4 -> l <> 8 ->
  (kindOf decls (rv_type fv) = reflect.Int ->
   Ignore fd = false -> FuncName fd = "" ->
   setOffset (Offsets fd) s = (Done None, s1) ->
   setField (S fuel) sv fv (Some fd) parents s
   = (Done (Some (errors.New
                    "need set tag with len or use int8/int16/int32/int64")),
      s1)
   /\ heap s1 = heap s)
  /\ (kindOf decls (rv_type fv) = reflect.Uint ->
      Ignore fd = false -> FuncName fd = "" ->
      setOffset (Offsets fd) s = (Done None, s1) ->
      setField (S fuel) sv fv (Some fd) parents s
      = (Done (Some (errors.New
                       "need set tag with len or use uint8/uint16/uint32/uint64")),
         s1)
      /\ heap s1 = heap s)
  /\ (typeWidth (kindOf decls (rv_type fv)) <> None
      \/ kindOf decls (rv_type fv) = reflect.Float32
      \/ kindOf decls (rv_type fv) = reflect.Float64 ->
      setField (S fuel) sv fv (Some fd) parents s
      = setField (S fuel) sv fv (Some (withLength fd None)) parents s).
Proof.
  intros Hl H1 H2 H4 H8.
  pose proof (lengthWidth_other fd l Hl H1 H2 H4 H8) as Hw.
  split; [|split].
  - intros Hk Hi Hf Ho.
    pose proof (integer_field_signed fuel sv fv fd parents s s1) as Hs.
    rewrite Hk in Hs. unfold resolvedWidth in Hs. rewrite Hw in Hs.
    apply Hs; auto.
  - intros Hk Hi Hf Ho.
    pose proof (integer_field_unsigned fuel sv fv fd parents s s1) as Hs.
    rewrite Hk in Hs. unfold resolvedWidth in Hs. rewrite Hw in Hs.
    apply Hs; auto.
  - intros Hk. apply fixed_width_ignores_length; assumption.
Qed.

(** ** Sequences *)

(** C8: a slice of unsigned bytes with length 3 over 01 02 03 decodes to
    [1, 2, 3]; with length 2 it decodes to [1, 2] and leaves the cursor at
    2; and a slice field with no length fails with the need set tag with
    len error. *)
Theorem slice_decoding fuel sv fv fd parents (s s1 : State R) :
  kindOf decls (rv_type fv) = reflect.Slice ->
  Ignore fd = false -> FuncName fd = "" -> Length fd = None ->
  setOffset (Offsets fd) s = (Done None, s1) ->
  (setField (S fuel) sv fv (Some fd) parents s
   = (Done (Some (errors.New "need set tag with len for slice")), s1)
   /\ heap s1 = heap s)
  /\ (let r := decodeFresh (TNamed "main" "Seq3") [x01; x02; x03] in
      fst r = Done None
      /\ heap (snd r) !! 0%nat
         = Some (VStruct [VSlice [VUint 1; VUint 2; VUint 3]])
      /\ cursor (rd (snd r)) = 3)
  /\ (let r := decodeFresh (TNamed "main" "Seq2") [x01; x02; x03] in
      fst r = Done None
      /\ heap (snd r) !! 0%nat = Some (VStruct [VSlice [VUint 1; VUint 2]])
      /\ cursor (rd (snd r)) = 2)
  /\ fst (decodeFresh (TNamed "main" "Seq") [x01; x02; x03])
     = Done (Some (Wrapf (errors.New "need set tag with len for slice")
                     "failed set value to field " "Data")).
Proof.
  intros Hk Hi Hf Hl Ho. split; [|split; [|split]].
  - apply setField_slice_no_length; assumption.
  - vm_compute. auto.
  - vm_compute. auto.
  - vm_compute. reflexivity.
Qed.

(** C10: for an array field a length of 0 counts as no length: either way
    the number of elements decoded is the static length of the array, and
    the two decodes are the same. *)
Theorem array_length_zero_is_absent fuel sv fv fd parents (s : State R) :
  kindOf decls (rv_type fv) = reflect.Array ->
  arrLenOf decls (withLength fd (Some 0)) fv
  = Z.of_nat (arrayLen decls (rv_type fv))
  /\ arrLenOf decls (withLength fd None) fv
     = Z.of_nat (arrayLen decls (rv_type fv))
  /\ setField (S fuel) sv fv (Some (withLength fd (Some 0))) parents s
     = setField (S fuel) sv fv (Some (withLength fd None)) parents s
  /\ (forall s1,
         Ignore fd = false -> FuncName fd = "" ->
         setOffset (Offsets fd) s = (Done None, s1) ->
         setField (S fuel) sv fv (Some (withLength fd (Some 0))) parents s
         = arrayLoop decls
             (fun tmpV => setField fuel sv tmpV (ElemFieldData fd) parents)
             (match elemOf decls (rv_type fv) with
              | Some et => reflectNew decls fuel et
              | None => panic "reflect: Elem of invalid type"
              end)
             fv O (arrayLen decls (rv_type fv)) s1)
  /\ decodeFresh (TNamed "main" "Arr30") [x01; x02; x03]
     = decodeFresh (TNamed "main" "Arr3") [x01; x02; x03]
  /\ heap (snd (decodeFresh (TNamed "main" "Arr30") [x01; x02; x03])) !! 0%nat
     = Some (VStruct [VArray [VUint 1; VUint 2; VUint 3]]).
Proof.
  intros Hk. split; [apply arrLenOf_zero|]. split; [apply arrLenOf_absent|].
  split; [apply array_zero_length_general; exact Hk|]. split; [|split].
  - intros s1 Hi Hf Ho.
    rewrite (setField_array fuel sv fv (withLength fd (Some 0)) parents s s1)
      by assumption.
    rewrite arrLenOf_zero, Nat2Z.id. reflexivity.
  - vm_compute. reflexivity.
  - vm_compute. reflexivity.
Qed.

(** ** Failure of a field *)


(** ** A routine that returns the field's value *)


(** ** Arrays *)

(** C9: an indexed assignment of the array case is carried out exactly when
    its index is below the static length of the array, and an assignment at
    or past that length panics and leaves the store as it was.  The engine
    does not compare the declared length with the static one: when the
    declared length is greater, and the elements up to the static length and
    the next one decode, the decode of a settable array field panics on the
    assignment past the end of the array instead of returning an error. *)
Theorem array_index_bounds fuel sv fv fd parents tmpV extra
    (s s0 s1 s2 s3 : State R) :
  kindOf decls (rv_type fv) = reflect.Array -> rv_canset fv = true ->
  Ignore fd = false -> FuncName fd = "" ->
  setOffset (Offsets fd) s = (Done None, s0) ->
  (forall i tmp (st : State R),
      (i < arrayLen decls (rv_type fv))%nat ->
      indexSet decls fv tmp i st
      = (Done tt,
         mkState (rd st)
           (heap_set (heap st)
              (mkLoc (loc_root (rv_loc fv)) (loc_path (rv_loc fv) ++ [i]))
              (default VOpaque (heap_get (heap st) (rv_loc tmp))))
           (trace st)))
  /\ (forall i tmp (st : State R),
         (arrayLen decls (rv_type fv) <= i)%nat ->
         indexSet decls fv tmp i st
         = (Panicked "reflect: array index out of range", st))
  /\ (arrLenOf decls fd fv
      = Z.of_nat (arrayLen decls (rv_type fv) + S extra) ->
      arrayLoop decls
        (fun tmpV => setField fuel sv tmpV (ElemFieldData fd) parents)
        (match elemOf decls (rv_type fv) with
         | Some et => reflectNew decls fuel et
         | None => panic "reflect: Elem of invalid type"
         end)
        fv O (arrayLen decls (rv_type fv)) s0
      = (Done None, s1) ->
      match elemOf decls (rv_type fv) with
      | Some et => reflectNew decls fuel et
      | None => panic "reflect: Elem of invalid type"
      end s1 = (Done tmpV, s2) ->
      setField fuel sv tmpV (ElemFieldData fd) parents s2 = (Done None, s3) ->
      setField (S fuel) sv fv (Some fd) parents s
      = (Panicked "reflect: array index out of range", s3))
  /\ (let r := decodeFresh (TNamed "main" "Arr23") [x01; x02; x03] in
      fst r = Panicked "reflect: array index out of range"
      /\ heap (snd r) !! 0%nat = Some (VStruct [VArray [VUint 1; VUint 2]])
      /\ cursor (rd (snd r)) = 3).
Proof.
  intros Hk Hset Hi Hf Ho. split; [|split; [|split]].
  - intros i tmp st Hlt. apply indexSet_inside. exact Hlt.
  - intros i tmp st Hge. apply indexSet_outside. exact Hge.
  - intros Hlen Hloop Hnew Hdec.
    rewrite (setField_array fuel sv fv fd parents s s0) by assumption.
    rewrite Hlen, Nat2Z.id.
    apply (arrayLoop_overrun _ _ fv _ extra tmpV s0 s1 s2 s3 Hset eq_refl
             Hloop Hnew Hdec).
  - vm_compute. auto.
Qed.

(** * More of the engine *)

Lemma Unmarshal_invalid_target_general (fuel : nat) (v : Iface) (s : State R) :
  invalidTarget decls v ->
  decode fuel v s = (Done (Some (errors.InvalidUnmarshalError (TypeOf v))), s).
Proof.
  unfold Unmarshal, unmarshal, unmarshalWith, invalidTarget.
  destruct v as [[t pv]|]; [|reflexivity].
  intros [Hk | Hnil]; simpl.
  - rewrite bool_decide_eq_false_2 by assumption. reflexivity.
  - rewrite Hnil, orb_true_r. reflexivity.
Qed.

(** ** [setOffset] *)

(** The seeks of a directive are issued in order; the store is never
    touched; either all succeed, or the first that fails ends the run with
    its error wrapped by [seek], the seeks after it not being issued. *)
Theorem setOffset_in_order (offsets : list FieldOffset) (s : State R) :
  heap (snd (setOffset offsets s)) = heap s
  /\ ((fst (setOffset offsets s) = Done None
       /\ trace (snd (setOffset offsets s)) = trace s ++ seekEvents offsets)
      \/ (exists pre v post cause,
             offsets = pre ++ v :: post
             /\ fst (setOffset offsets s)
                = Done (Some (errors.Wrap cause "seek"))
             /\ trace (snd (setOffset offsets s))
                = trace s ++ seekEvents (pre ++ [v]))).
Proof.
  split.
  { destruct (setOffset offsets s) as [o s'] eqn:Hrun.
    eapply setOffset_heap, Hrun. }
  revert s. induction offsets as [|v rest IH]; intros s.
  - left. simpl. rewrite app_nil_r. auto.
  - cbn [setOffset]. unfold bind, readerCall.
    destruct (Seek (Offset v) (Whence v) (rd s)) as [[cause|pos] r'].
    + right. exists [], v, rest, cause. simpl. auto.
    + destruct (IH (mkState r' (heap s)
                      (trace s ++ [EvSeek (Offset v) (Whence v)])))
        as [[Ho Ht] | (pre & w & post & cause & -> & Ho & Ht)].
      * left. split; [exact Ho|]. rewrite Ht. simpl.
        rewrite <- app_assoc. reflexivity.
      * right. exists (v :: pre), w, post, cause.
        split; [reflexivity|]. split; [exact Ho|]. rewrite Ht. simpl.
        rewrite <- app_assoc. reflexivity.
Qed.

(** A seek that fails ends the decode of the field before anything is read
    and before any routine is called, delegated field or not: the error
    comes back wrapped by [set offset], and the store is as it was. *)
Theorem seek_failure_aborts_field fuel sv fv fd parents e (s s1 : State R) :
  Ignore fd = false ->
  setOffset (Offsets fd) s = (Done (Some e), s1) ->
  setField (S fuel) sv fv (Some fd) parents s
  = (Done (Some (errors.Wrap e "set offset")), s1)
  /\ heap s1 = heap s
  /\ exists pre v post cause,
       Offsets fd = pre ++ v :: post
       /\ e = errors.Wrap cause "seek"
       /\ trace s1 = trace s ++ seekEvents (pre ++ [v]).
Proof.
  intros Hi Ho. split; [|split].
  - enter_field Hi Ho. reflexivity.
  - eapply setOffset_heap, Ho.
  - destruct (setOffset_in_order (Offsets fd) s) as [_ Hcases].
    rewrite Ho in Hcases. simpl in Hcases.
    destruct Hcases as [[Hd _] | (pre & v & post & cause & Hs & Hd & Ht)];
      [discriminate Hd|].
    exists pre, v, post, cause. split; [exact Hs|]. split; [congruence|].
    exact Ht.
Qed.

(** ** The loop of [unmarshal], again *)

(** The fields of a record are decoded in declaration order, each from the
    state the one before it left: decoding [pre ++ rest] is decoding [pre]
    and, when that ends without error, decoding [rest] from there; anything
    else [pre] ends with is the end of the whole. *)
Theorem record_decode_composes setF sv parents i pre rest (s : State R) :
  fieldsFrom setF sv parents i (pre ++ rest) s
  = match fst (fieldsFrom setF sv parents i pre s) with
    | Done None =>
        fieldsFrom setF sv parents (i + length pre) rest
          (snd (fieldsFrom setF sv parents i pre s))
    | _ => fieldsFrom setF sv parents i pre s
    end.
Proof.
  revert i s. induction pre as [|f pre IH]; intros i s.
  - simpl. rewrite Nat.add_0_r. reflexivity.
  - cbn [unmarshalFields app length].
    destruct (parseTag (Tag f)) as [e|tags]; [reflexivity|].
    unfold bind. destruct (load sv s) as [[cur|msg|] sa]; try reflexivity.
    destruct (parseReadDataFromTags (rv_type sv) cur tags) as [e|fd];
      [reflexivity|].
    destruct (setF sv (Field sv i f) fd parents sa) as [[[e|]|msg|] sb];
      try reflexivity.
    rewrite IH. replace (S i + length pre)%nat with (i + S (length pre))%nat
      by lia.
    reflexivity.
Qed.

(** A record all of whose fields are marked to be ignored is decoded
    without a read, a seek or a write, whatever else the directives of its
    fields say. *)
Theorem ignored_fields_read_nothing fuel t l parents fields (s : State R) :
  underlyingOf decls t = UStruct fields ->
  Forall (fun f =>
            exists tags fd,
              parseTag (Tag f) = inr tags
              /\ (forall v, parseReadDataFromTags t v tags = inr (Some fd))
              /\ Ignore fd = true)
         fields ->
  decodeRecord (S fuel) (Some (TPtr t, VPtr (Some l))) parents s
  = (Done None, s).
Proof.
  intros Hu Hall. rewrite (unmarshal_record (S fuel) t l parents fields s Hu).
  clear Hu. generalize O. induction Hall as [|f rest (tags & fd & Ht & Hd & Hi) _ IH];
    intros i; [reflexivity|].
  cbn [unmarshalFields]. rewrite Ht. unfold bind.
  assert (Hload : exists cur, load (mkRValue l t true) s = (Done cur, s)).
  { unfold load. destruct (heap_get (heap s) _); eauto. }
  destruct Hload as (cur & ->). cbn [rv_type]. rewrite Hd.
  rewrite setField_ignored by exact Hi. apply IH.
Qed.

(** ** Kinds without a case *)

(** A field whose kind the switch has no case for (a pointer, a map, an
    interface, a complex number, ...) and whose directive names no routine
    fails with the error [type "<kind>" not supported]; nothing is read and
    nothing is written. *)
Theorem unsupported_kind_error fuel sv fv fd parents (s s1 : State R) :
  isSupported (kindOf decls (rv_type fv)) = false ->
  Ignore fd = false -> FuncName fd = "" ->
  setOffset (Offsets fd) s = (Done None, s1) ->
  setField (S fuel) sv fv (Some fd) parents s
  = (Done (Some (errors.New
                   ("type " +:+ dquote
                    +:+ reflect.KindString (kindOf decls (rv_type fv))
                    +:+ dquote +:+ " not supported"))),
     s1)
  /\ heap s1 = heap s.
Proof.
  intros Hk Hi Hf Ho. split; [|eapply setOffset_heap, Ho].
  builtin_field Hi Ho Hf.
  destruct (kindOf decls (rv_type fv)); try discriminate Hk; reflexivity.
Qed.

(** ** [InvalidUnmarshalError.Error] *)

(** The text of the error [Unmarshal] returns for a target it refuses tells
    the three cases apart: nil, a value that is not a pointer (with its
    type), and a nil pointer (with its type). *)
Theorem invalid_target_text (fuel : nat) (v : Iface) (s : State R) :
  invalidTarget decls v ->
  exists e,
    decode fuel v s = (Done (Some e), s)
    /\ Error decls e
       = match v with
         | None => "binstruct: Unmarshal(nil)"
         | Some (t, _) =>
             if bool_decide (kindOf decls t = reflect.Ptr)
             then "binstruct: Unmarshal(nil " +:+ TypeString t +:+ ")"
             else "binstruct: Unmarshal(non-pointer " +:+ TypeString t +:+ ")"
         end.
Proof.
  intros Hinv. exists (errors.InvalidUnmarshalError (TypeOf v)).
  split; [apply Unmarshal_invalid_target_general; exact Hinv|].
  destruct v as [[t pv]|]; [|reflexivity]. simpl.
  destruct (bool_decide (kindOf decls t = reflect.Ptr)); reflexivity.
Qed.

(** ** Scalars *)

Lemma readerCall_heap {A} ev (op : R -> A * R) (s s' : State R) o :
  readerCall ev op s = (o, s') -> heap s' = heap s.
Proof.
  unfold readerCall. destruct (op (rd s)) as [a r']. intros Hrun.
  inversion Hrun; reflexivity.
Qed.

Lemma readSigned_heap fd k (s s' : State R) o :
  readSigned fd k s = (o, s') -> heap s' = heap s.
Proof.
  unfold readSigned.
  repeat (destruct (_ || _); [apply readerCall_heap|]).
  intros Hrun. inversion Hrun; reflexivity.
Qed.

Lemma readUnsigned_heap fd k (s s' : State R) o :
  readUnsigned fd k s = (o, s') -> heap s' = heap s.
Proof.
  unfold readUnsigned.
  repeat (destruct (_ || _); [apply readerCall_heap|]).
  intros Hrun. inversion Hrun; reflexivity.
Qed.

(** A read followed by the store of what was read: an error can only come
    from the read, before anything is stored. *)
Lemma read_store_error {A} (read : M R (error + A)) (k : A -> M R unit)
    e (s s' : State R) :
  (forall st o st', read st = (o, st') -> heap st' = heap st) ->
  (r <- read ;;
   match r with
   | inl e' => ret (Some e')
   | inr v => _ <- k v ;; ret None
   end) s = (Done (Some e), s') ->
  heap s' = heap s.
Proof.
  intros Hread Hrun. unfold bind in Hrun.
  destruct (read s) as [[[e0|v]|msg|] s1] eqn:Hr; try discriminate Hrun.
  - inversion Hrun; subst. eapply Hread, Hr.
  - destruct (k v s1) as [[u|msg|] s2]; discriminate Hrun.
Qed.


(** What [setValueToField] comes to when a seek fails or does not return. *)
Lemma setField_seek_outcome fuel sv fv fd parents (s s1 : State R) o :
  Ignore fd = false ->
  setOffset (Offsets fd) s = (o, s1) -> o <> Done None ->
  setField (S fuel) sv fv (Some fd) parents s
  = (match o with
     | Done (Some e) => Done (Some (errors.Wrap e "set offset"))
     | Done None => Done None
     | Panicked msg => Panicked msg
     | OutOfFuel => OutOfFuel
     end, s1).
Proof.
  intros Hi Ho Hne. enter_field Hi Ho.
  destruct o as [[e|]|msg|]; try reflexivity. contradiction.
Qed.

(** Every scalar case of the switch is a read that leaves the store alone,
    followed, when the read succeeds, by the store of a value made from
    what was read. *)
Lemma setField_scalar_form fuel sv l t fd parents (s s1 : State R) :
  isScalar (kindOf decls t) = true ->
  Ignore fd = false -> FuncName fd = "" ->
  setOffset (Offsets fd) s = (Done None, s1) ->
  exists (A : Type) (read : M R (error + A)) (g : A -> Value),
    (forall st o st', read st = (o, st') -> heap st' = heap st)
    /\ forall b,
         setField (S fuel) sv (mkRValue l t b) (Some fd) parents s
         = (r <- read ;;
            match r with
            | inl e' => ret (Some e')
            | inr v =>
                _ <- whenCanSet (mkRValue l t b)
                       (store (mkRValue l t b) (g v)) ;;
                ret None
            end) s1.
Proof.
  intros Hk Hi Hf Ho.
  assert (Hsigned :
            isSigned (kindOf decls t) = true ->
            forall b,
              setField (S fuel) sv (mkRValue l t b) (Some fd) parents s
              = (r <- readSigned fd (kindOf decls t) ;;
                 match r with
                 | inl e' => ret (Some e')
                 | inr v =>
                     _ <- whenCanSet (mkRValue l t b)
                            (store (mkRValue l t b)
                               (VInt (wrapSigned (kindBits (kindOf decls t))
                                        v))) ;;
                     ret None
                 end) s1).
  { intros Hs b.
    apply (setField_signed fuel sv (mkRValue l t b) fd parents s s1);
      assumption. }
  assert (Hunsigned :
            isUnsigned (kindOf decls t) = true ->
            forall b,
              setField (S fuel) sv (mkRValue l t b) (Some fd) parents s
              = (r <- readUnsigned fd (kindOf decls t) ;;
                 match r with
                 | inl e' => ret (Some e')
                 | inr v =>
                     _ <- whenCanSet (mkRValue l t b)
                            (store (mkRValue l t b)
                               (VUint (wrapUnsigned
                                         (kindBits (kindOf decls t)) v))) ;;
                     ret None
                 end) s1).
  { intros Hs b.
    apply (setField_unsigned fuel sv (mkRValue l t b) fd parents s s1);
      assumption. }
  destruct (isSigned (kindOf decls t)) eqn:Es.
  { exists Z. exists (readSigned fd (kindOf decls t)).
    exists (fun v => VInt (wrapSigned (kindBits (kindOf decls t)) v)).
    split; [intros st o st'; apply readSigned_heap|auto]. }
  destruct (isUnsigned (kindOf decls t)) eqn:Eu.
  { exists Z. exists (readUnsigned fd (kindOf decls t)).
    exists (fun v => VUint (wrapUnsigned (kindBits (kindOf decls t)) v)).
    split; [intros st o st'; apply readUnsigned_heap|auto]. }
  clear Hsigned Hunsigned.
  destruct (kindOf decls t) eqn:Ek;
    try discriminate Hk; try discriminate Es; try discriminate Eu.
  - exists bool. exists (readerCall EvReadBool ReadBool). exists VBool.
    split; [intros st o st'; apply readerCall_heap|].
    intros b. builtin_field Hi Ho Hf. cbn [rv_type]. rewrite Ek. reflexivity.
  - exists Z. exists (readerCall EvReadFloat32 ReadFloat32). exists VFloat32.
    split; [intros st o st'; apply readerCall_heap|].
    intros b. builtin_field Hi Ho Hf. cbn [rv_type]. rewrite Ek. reflexivity.
  - exists Z. exists (readerCall EvReadFloat64 ReadFloat64). exists VFloat64.
    split; [intros st o st'; apply readerCall_heap|].
    intros b. builtin_field Hi Ho Hf. cbn [rv_type]. rewrite Ek. reflexivity.
  - destruct (Length fd) as [len|] eqn:Hl.
    + exists (Z * list byte)%type.
      exists (readerCall (EvReadBytes len) (ReadBytes len)).
      exists (fun p => VString (string_of_list_byte (snd p))).
      split; [intros st o st'; apply readerCall_heap|].
      intros b. builtin_field Hi Ho Hf. cbn [rv_type]. rewrite Ek, Hl.
      apply bind_ext. intros [e|[n bs]] st; reflexivity.
    + exists unit.
      exists (ret (inl (errors.New "need set tag with len for string"))).
      exists (fun _ => VOpaque).
      split; [intros st o st' Hrun; inversion Hrun; reflexivity|].
      intros b. builtin_field Hi Ho Hf. cbn [rv_type]. rewrite Ek, Hl.
      reflexivity.
Qed.

(** When the decode of a scalar field (an integer, a float, a boolean, a
    string) fails, nothing was stored: the field is not partly filled. *)
Theorem scalar_failure_leaves_store fuel sv fv fd parents e (s s' : State R) :
  isScalar (kindOf decls (rv_type fv)) = true -> FuncName fd = "" ->
  setField (S fuel) sv fv (Some fd) parents s = (Done (Some e), s') ->
  heap s' = heap s.
Proof.
  intros Hk Hf Hrun. destruct (Ignore fd) eqn:Hi.
  { rewrite setField_ignored in Hrun by exact Hi. discriminate Hrun. }
  destruct (setOffset (Offsets fd) s) as [o s1] eqn:Ho.
  pose proof (setOffset_heap _ _ _ _ Ho) as Hh.
  assert (Hd : o = Done None \/ o <> Done None)
    by (destruct o as [[?|]| |]; auto; right; discriminate).
  destruct Hd as [->|Hne].
  - destruct fv as [l t b]. cbn [rv_type] in Hk.
    destruct (setField_scalar_form fuel sv l t fd parents s s1 Hk Hi Hf Ho)
      as (A & read & g & Hread & Hform).
    rewrite Hform in Hrun. rewrite <- Hh.
    eapply read_store_error; [exact Hread|exact Hrun].
  - rewrite (setField_seek_outcome fuel sv fv fd parents s s1 o Hi Ho Hne)
      in Hrun.
    inversion Hrun; subst. exact Hh.
Qed.



(** ** Routines, again *)





(** ** The store, again *)



Lemma heap_get_app (h e : Heap) (l : Loc) :
  (loc_root l < length h)%nat -> heap_get (h ++ e) l = heap_get h l.
Proof.
  intros Hl. unfold heap_get. rewrite lookup_app_l by exact Hl. reflexivity.
Qed.

Lemma frame_fresh_app r p (h : Heap) v h' :
  (length h <= r)%nat ->
  Frame (mkLoc r p) (h ++ [v]) h' -> exists e, h' = h ++ e.
Proof.
  intros Hr (w & e & ->).
  destruct (heap_set_app_r h [v] (mkLoc r p) w Hr) as (e' & ->).
  exists (e' ++ e). symmetry. apply app_assoc.
Qed.


(** An element allocated and decoded leaves the store it started from as
    it was, with values added at the end. *)
Lemma element_adds_only (dec : RValue -> M R (option error)) new
    (s sa sb : State R) tmpV o :
  allocates new ->
  (forall tmp, framed (rv_loc tmp) (dec tmp)) ->
  new s = (Done tmpV, sa) -> dec tmpV sa = (o, sb) ->
  exists e, heap sb = heap s ++ e.
Proof.
  intros Hnew Hdec Hn Hd.
  destruct (Hnew _ _ _ Hn) as [(v & t & Heq & Hh) | [Hnd _]];
    [|exfalso; eapply Hnd; reflexivity].
  injection Heq as ->.
  apply (frame_fresh_app (length (heap s)) [] (heap s) v); [reflexivity|].
  rewrite <- Hh.
  apply (Hdec (mkRValue (mkLoc (length (heap s)) []) t true) sa o sb);
    [|exact Hd].
  rewrite Hh, length_app. simpl. lia.
Qed.

Lemma new_failure_keeps_store new (s sa : State R) o :
  allocates new -> new s = (o, sa) -> (forall x, o <> Done x) ->
  heap sa = heap s.
Proof.
  intros Hnew Hn Hnd.
  destruct (Hnew _ _ _ Hn) as [(v & t & -> & _) | [_ Hh]]; [|exact Hh].
  exfalso. eapply Hnd. reflexivity.
Qed.

(** ** Decoding is local to the field *)


(** ** Slices and arrays, again *)

Lemma setField_slice fuel sv fv fd parents len (s s1 : State R) :
  kindOf decls (rv_type fv) = reflect.Slice ->
  Ignore fd = false -> FuncName fd = "" -> Length fd = Some len ->
  setOffset (Offsets fd) s = (Done None, s1) ->
  setField (S fuel) sv fv (Some fd) parents s
  = sliceLoop
      (fun tmpV => setField fuel sv tmpV (ElemFieldData fd) parents)
      (match elemOf decls (rv_type fv) with
       | Some et => reflectNew decls fuel et
       | None => panic "reflect: Elem of invalid type"
       end)
      fv (Z.to_nat len) s1.
Proof.
  intros Hk Hi Hf Hl Ho. builtin_field Hi Ho Hf. rewrite Hk, Hl. reflexivity.
Qed.

Lemma newElem_allocates fuel t :
  allocates
    match elemOf decls t with
    | Some et => reflectNew decls fuel et
    | None => panic "reflect: Elem of invalid type"
    end.
Proof.
  destruct (elemOf decls t); [apply reflectNew_allocates|apply panic_allocates].
Qed.



(** A length that is not positive decodes nothing: a slice field with a
    length of zero or less, and an array field with a negative length, end
    without error, without a read and without a write (for an array a
    length of zero stands for the whole array, a negative one does not). *)
Theorem nonpositive_length_decodes_nothing fuel sv fv fd parents len
    (s s1 : State R) :
  Ignore fd = false -> FuncName fd = "" -> Length fd = Some len ->
  setOffset (Offsets fd) s = (Done None, s1) ->
  (kindOf decls (rv_type fv) = reflect.Slice -> len <= 0 ->
   setField (S fuel) sv fv (Some fd) parents s = (Done None, s1))
  /\ (kindOf decls (rv_type fv) = reflect.Array -> len < 0 ->
      setField (S fuel) sv fv (Some fd) parents s = (Done None, s1))
  /\ heap s1 = heap s.
Proof.
  intros Hi Hf Hl Ho. split; [|split; [|eapply setOffset_heap, Ho]].
  - intros Hk Hlen.
    rewrite (setField_slice fuel sv fv fd parents len s s1) by assumption.
    rewrite Z2Nat.nonpos by exact Hlen. reflexivity.
  - intros Hk Hlen.
    rewrite (setField_array fuel sv fv fd parents s s1) by assumption.
    unfold arrLenOf. rewrite Hl.
    rewrite bool_decide_eq_false_2 by lia.
    rewrite Z2Nat.nonpos by lia. reflexivity.
Qed.

(** The loop of the array case at index [i] with [n] iterations left
    changes no element of the array outside the indices from [i] to
    [i + n], however it ends. *)
Lemma arrayLoop_range (dec : RValue -> M R (option error)) new fv i n
    (s s' : State R) o :
  allocates new ->
  (forall tmp, framed (rv_loc tmp) (dec tmp)) ->
  (loc_root (rv_loc fv) < length (heap s))%nat ->
  arrayLoop decls dec new fv i n s = (o, s') ->
  forall j q,
    (j < i \/ i + n <= j)%nat ->
    heap_get (heap s')
      (mkLoc (loc_root (rv_loc fv)) (loc_path (rv_loc fv) ++ j :: q))
    = heap_get (heap s)
        (mkLoc (loc_root (rv_loc fv)) (loc_path (rv_loc fv) ++ j :: q)).
Proof.
  intros Hnew Hdec. revert i s.
  induction n as [|n IH]; intros i s Hroot Hrun j q Hj.
  - inversion Hrun; subst. reflexivity.
  - cbn [arrayLoop] in Hrun. unfold bind in Hrun.
    destruct (new s) as [o1 sa] eqn:Hn.
    destruct o1 as [tmpV|msg|];
      try (inversion Hrun; subst;
           rewrite (new_failure_keeps_store new s s' _ Hnew Hn)
             by discriminate;
           reflexivity).
    destruct (dec tmpV sa) as [o2 sb] eqn:Hd.
    destruct (element_adds_only dec new s sa sb tmpV o2 Hnew Hdec Hn Hd)
      as (ext & Hsb).
    assert (Hkeep : heap_get (heap sb)
                      (mkLoc (loc_root (rv_loc fv))
                             (loc_path (rv_loc fv) ++ j :: q))
                    = heap_get (heap s)
                        (mkLoc (loc_root (rv_loc fv))
                               (loc_path (rv_loc fv) ++ j :: q))).
    { rewrite Hsb. apply heap_get_app. exact Hroot. }
    destruct o2 as [[e|]|msg|]; try (inversion Hrun; subst; exact Hkeep).
    destruct (whenCanSet fv (indexSet decls fv tmpV i) sb) as [o3 sc] eqn:Hw.
    assert (F : Frame (mkLoc (loc_root (rv_loc fv))
                             (loc_path (rv_loc fv) ++ [i]))
                  (heap sb) (heap sc)).
    { unfold whenCanSet in Hw. destruct (rv_canset fv).
      - unfold indexSet in Hw. destruct (bool_decide _).
        + unfold bind, load, store in Hw.
          destruct (heap_get (heap sb) (rv_loc tmpV)); inversion Hw; subst;
            apply frame_store.
        + inversion Hw; subst. apply frame_refl.
      - inversion Hw; subst. apply frame_refl. }
    assert (Hrootb : (loc_root (rv_loc fv) < length (heap sb))%nat)
      by (rewrite Hsb, length_app; lia).
    assert (Hkeep2 : heap_get (heap sc)
                       (mkLoc (loc_root (rv_loc fv))
                              (loc_path (rv_loc fv) ++ j :: q))
                     = heap_get (heap s)
                         (mkLoc (loc_root (rv_loc fv))
                                (loc_path (rv_loc fv) ++ j :: q))).
    { rewrite <- Hkeep. apply (frame_sibling _ _ i j q); [lia|exact Hrootb|].
      exact F. }
    destruct o3 as [u|msg|]; try (inversion Hrun; subst; exact Hkeep2).
    rewrite <- Hkeep2. eapply IH; [|exact Hrun|lia].
    pose proof (frame_length _ _ _ F). lia.
Qed.

(** An array field with a declared length shorter than the array is filled
    up to that length only: the elements from the declared length on keep
    the values they had, however the decode ends. *)
Theorem short_array_length_keeps_rest fuel sv fv fd parents len
    (s s1 : State R) :
  receiversKept decls ->
  kindOf decls (rv_type fv) = reflect.Array ->
  Ignore fd = false -> FuncName fd = "" -> Length fd = Some len ->
  0 < len ->
  setOffset (Offsets fd) s = (Done None, s1) ->
  (loc_root (rv_loc fv) < length (heap s))%nat ->
  forall j q,
    (Z.to_nat len <= j)%nat ->
    heap_get (heap (snd (setField (S fuel) sv fv (Some fd) parents s)))
      (mkLoc (loc_root (rv_loc fv)) (loc_path (rv_loc fv) ++ j :: q))
    = heap_get (heap s)
        (mkLoc (loc_root (rv_loc fv)) (loc_path (rv_loc fv) ++ j :: q)).
Proof.
  intros Hkept Hk Hi Hf Hl Hpos Ho Hroot j q Hj.
  rewrite (setField_array fuel sv fv fd parents s s1) by assumption.
  pose proof (setOffset_heap _ _ _ _ Ho) as Hh. rewrite <- Hh in *.
  assert (Hlen : arrLenOf decls fd fv = len).
  { unfold arrLenOf. rewrite Hl. rewrite bool_decide_eq_false_2 by lia.
    reflexivity. }
  rewrite Hlen.
  match goal with
  | |- context [arrayLoop decls ?dec ?new fv O ?n s1] =>
      destruct (arrayLoop decls dec new fv O n s1) as [o s'] eqn:Hrun;
      apply (arrayLoop_range dec new fv O n s1 s' o)
  end; try assumption.
  - apply newElem_allocates.
  - intros tmp. apply framed_setField. exact Hkept.
  - right. simpl. exact Hj.
Qed.

End Properties.

(** * The claims at concrete inputs *)

(** An [int32] value, which is not a pointer, is refused and the state is kept. *)
Lemma Unmarshal_invalid_target_witness :
  invalidTarget exampleDecls (Some (tInt32, VInt 7))
  /\ Unmarshal exampleDecls string exampleParseTag exampleReadData 3
       (Some (tInt32, VInt 7)) intState
     = (Done (Some (errors.InvalidUnmarshalError (Some tInt32))), intState).
Proof.
  assert (Hinv : invalidTarget exampleDecls (Some (tInt32, VInt 7)))
    by (left; vm_compute; discriminate).
  split; [exact Hinv|].
  exact (Unmarshal_invalid_target exampleDecls string exampleParseTag
           exampleReadData 3 (Some (tInt32, VInt 7)) intState Hinv).
Defined.

(** C4, as stated, fails at a non-nil pointer to an [int]: it is not a
    reference to a record, yet no [InvalidUnmarshalError] comes back; the
    call panics in [NumField]. *)
Lemma Unmarshal_pointer_to_int :
  fst (Unmarshal exampleDecls string exampleParseTag exampleReadData 3
         intPointer intState)
  = Panicked "reflect: call of reflect.Value.NumField on int Value"
  /\ ~ (exists t,
          fst (Unmarshal exampleDecls string exampleParseTag exampleReadData 3
                 intPointer intState)
          = Done (Some (errors.InvalidUnmarshalError t))).
Proof.
  split; [vm_compute; reflexivity|].
  intros [t Ht]. vm_compute in Ht. discriminate Ht.
Qed.



(** A signed 32-bit field without a length over 01 00 00 00. *)
Lemma integer_width_resolution_witness :
  Ignore emptyFieldReadData = false
  /\ FuncName emptyFieldReadData = ""
  /\ setOffset (Offsets emptyFieldReadData)
       (freshState (TNamed "main" "Rec32") [x01; x00; x00; x00])
     = (Done None, freshState (TNamed "main" "Rec32") [x01; x00; x00; x00])
  /\ exampleSetField 1 (rootRecord (TNamed "main" "Rec32"))
       (firstField tInt32) (Some emptyFieldReadData) []
       (freshState (TNamed "main" "Rec32") [x01; x00; x00; x00])
     = (Done None,
        mkState (mkBuf [x01; x00; x00; x00] 4 LittleEndian)
          [VStruct [VInt 1]] [EvReadInt32]).
Proof.
  assert (H1 : Ignore emptyFieldReadData = false) by reflexivity.
  assert (H2 : FuncName emptyFieldReadData = "") by reflexivity.
  assert (H3 : setOffset (Offsets emptyFieldReadData)
                 (freshState (TNamed "main" "Rec32") [x01; x00; x00; x00])
               = (Done None,
                  freshState (TNamed "main" "Rec32") [x01; x00; x00; x00]))
    by reflexivity.
  split; [exact H1|]. split; [exact H2|]. split; [exact H3|].
  refine (eq_trans
            (proj1 (integer_width_resolution exampleDecls string
                      exampleParseTag exampleReadData 0
                      (rootRecord (TNamed "main" "Rec32")) (firstField tInt32)
                      emptyFieldReadData [] _ _ H1 H2 H3) eq_refl) _).
  vm_compute. reflexivity.
Defined.

(** C2, as stated, fails for a signed 8-bit field with length 2: one byte is
    read, not a 16-bit value. *)
Lemma int8_length_two_reads_one_byte :
  decodeFresh (TNamed "main" "I8L2") [x01; x02; x03]
  = (Done None,
     mkState (mkBuf [x01; x02; x03] 1 LittleEndian)
       [VStruct [VInt 1]] [EvReadInt8])
  /\ trace (snd (decodeFresh (TNamed "main" "I8L2") [x01; x02; x03]))
     <> [EvReadInt16].
Proof.
  split; [vm_compute; reflexivity|]. vm_compute. discriminate.
Qed.

(** An [int] field with length 3. *)
Lemma length_outside_widths_witness :
  Length (lengthData 3) = Some 3
  /\ kindOf exampleDecls (TBasic reflect.Int) = reflect.Int
  /\ exampleSetField 1 (rootRecord (TNamed "main" "IntL3"))
       (firstField (TBasic reflect.Int)) (Some (lengthData 3)) []
       (freshState (TNamed "main" "IntL3") [x01; x02; x03; x04])
     = (Done (Some (errors.New
                      "need set tag with len or use int8/int16/int32/int64")),
        freshState (TNamed "main" "IntL3") [x01; x02; x03; x04]).
Proof.
  assert (H0 : Length (lengthData 3) = Some 3) by reflexivity.
  assert (Hk : kindOf exampleDecls (TBasic reflect.Int) = reflect.Int)
    by reflexivity.
  split; [exact H0|]. split; [exact Hk|].
  refine (proj1
            (proj1 (length_outside_widths exampleDecls string exampleParseTag
                      exampleReadData 0 (rootRecord (TNamed "main" "IntL3"))
                      (firstField (TBasic reflect.Int)) (lengthData 3) []
                      _ _ 3 H0 _ _ _ _)
                   Hk eq_refl eq_refl eq_refl)); lia.
Defined.

(** C6, as stated, fails for a 32-bit float field and for a signed 32-bit
    field with length 3: both are decoded, four bytes being read. *)
Lemma fixed_width_length_three_decodes :
  decodeFresh (TNamed "main" "F32L3") [x01; x02; x03; x04]
  = (Done None,
     mkState (mkBuf [x01; x02; x03; x04] 4 LittleEndian)
       [VStruct [VFloat32 67305985]] [EvReadFloat32])
  /\ decodeFresh (TNamed "main" "I32L3") [x01; x02; x03; x04]
     = (Done None,
        mkState (mkBuf [x01; x02; x03; x04] 4 LittleEndian)
          [VStruct [VInt 67305985]] [EvReadInt32]).
Proof. split; vm_compute; reflexivity. Qed.

(** A slice field without a length. *)
Lemma slice_decoding_witness :
  kindOf exampleDecls (TSlice tUint8) = reflect.Slice
  /\ Length emptyFieldReadData = None
  /\ exampleSetField 1 (rootRecord (TNamed "main" "Seq"))
       (firstField (TSlice tUint8)) (Some emptyFieldReadData) []
       (freshState (TNamed "main" "Seq") [x01; x02; x03])
     = (Done (Some (errors.New "need set tag with len for slice")),
        freshState (TNamed "main" "Seq") [x01; x02; x03]).
Proof.
  assert (Hk : kindOf exampleDecls (TSlice tUint8) = reflect.Slice)
    by reflexivity.
  split; [exact Hk|]. split; [reflexivity|].
  exact (proj1
           (proj1 (slice_decoding exampleDecls string exampleParseTag
                     exampleReadData 0 (rootRecord (TNamed "main" "Seq"))
                     (firstField (TSlice tUint8)) emptyFieldReadData [] _ _
                     Hk eq_refl eq_refl eq_refl eq_refl))).
Defined.

(** An array of three bytes with length 0 and with no length. *)
Lemma array_length_zero_is_absent_witness :
  kindOf exampleDecls (TArray 3 tUint8) = reflect.Array
  /\ exampleSetField 1 (rootRecord (TNamed "main" "Arr30"))
       (firstField (TArray 3 tUint8))
       (Some (withLength emptyFieldReadData (Some 0))) []
       (freshState (TNamed "main" "Arr30") [x01; x02; x03])
     = exampleSetField 1 (rootRecord (TNamed "main" "Arr30"))
         (firstField (TArray 3 tUint8))
         (Some (withLength emptyFieldReadData None)) []
         (freshState (TNamed "main" "Arr30") [x01; x02; x03]).
Proof.
  assert (Hk : kindOf exampleDecls (TArray 3 tUint8) = reflect.Array)
    by reflexivity.
  split; [exact Hk|].
  exact (proj1 (proj2 (proj2
           (array_length_zero_is_absent exampleDecls string exampleParseTag
              exampleReadData 0 (rootRecord (TNamed "main" "Arr30"))
              (firstField (TArray 3 tUint8)) emptyFieldReadData []
              (freshState (TNamed "main" "Arr30") [x01; x02; x03]) Hk)))).
Defined.

(** The routines of the example programs leave their receiver alone. *)
Lemma exampleDecls_receiversKept : receiversKept exampleDecls.
Proof.
  intros key d name m recv r Hd Hm.
  assert (Hcases : td_methods d = ∅
                   \/ td_methods d = {[ "F" := readInt32Method ]}).
  { unfold exampleDecls in Hd. apply elem_of_list_to_map_2 in Hd.
    repeat (apply elem_of_cons in Hd as [Hd|Hd];
            [injection Hd as _ ->; auto|]).
    apply elem_of_nil in Hd. destruct Hd. }
  destruct Hcases as [He|He]; rewrite He in Hm.
  - rewrite lookup_empty in Hm. discriminate Hm.
  - apply lookup_singleton_Some in Hm as [_ <-]. simpl.
    destruct (bufReadInt 4 r) as [[e|v] r']; reflexivity.
Qed.



(** An array of two bytes with a declared length of 3, over three bytes. *)
Lemma array_index_bounds_witness :
  kindOf exampleDecls (TArray 2 tUint8) = reflect.Array
  /\ arrLenOf exampleDecls (lengthData 3) (firstField (TArray 2 tUint8))
     = Z.of_nat (arrayLen exampleDecls (TArray 2 tUint8) + 1)
  /\ arrayLoop exampleDecls arrayElem arrayNew (firstField (TArray 2 tUint8))
       O 2 (freshState (TNamed "main" "Arr23") [x01; x02; x03])
     = (Done None, arrayFilled)
  /\ exampleSetField 2 (rootRecord (TNamed "main" "Arr23"))
       (firstField (TArray 2 tUint8)) (Some (lengthData 3)) []
       (freshState (TNamed "main" "Arr23") [x01; x02; x03])
     = (Panicked "reflect: array index out of range",
        mkState (mkBuf [x01; x02; x03] 3 LittleEndian)
          [VStruct [VArray [VUint 1; VUint 2]]; VUint 1; VUint 2; VUint 3]
          [EvReadUint8; EvReadUint8; EvReadUint8]).
Proof.
  assert (Hk : kindOf exampleDecls (TArray 2 tUint8) = reflect.Array)
    by reflexivity.
  assert (Hlen : arrLenOf exampleDecls (lengthData 3)
                   (firstField (TArray 2 tUint8))
                 = Z.of_nat (arrayLen exampleDecls (TArray 2 tUint8) + 1))
    by reflexivity.
  assert (Hloop : arrayLoop exampleDecls arrayElem arrayNew
                    (firstField (TArray 2 tUint8)) O 2
                    (freshState (TNamed "main" "Arr23") [x01; x02; x03])
                  = (Done None, arrayFilled)) by (vm_compute; reflexivity).
  split; [exact Hk|]. split; [exact Hlen|]. split; [exact Hloop|].
  refine (eq_trans
            (proj1 (proj2 (proj2
               (array_index_bounds exampleDecls string exampleParseTag
                  exampleReadData 1 (rootRecord (TNamed "main" "Arr23"))
                  (firstField (TArray 2 tUint8)) (lengthData 3) []
                  arrayThird O
                  (freshState (TNamed "main" "Arr23") [x01; x02; x03])
                  (freshState (TNamed "main" "Arr23") [x01; x02; x03])
                  arrayFilled (snd (arrayNew arrayFilled))
                  (snd (arrayElem arrayThird (snd (arrayNew arrayFilled))))
                  Hk eq_refl eq_refl eq_refl eq_refl)))
               Hlen Hloop _ _) _);
    vm_compute; reflexivity.
Defined.

(** * More of the engine at concrete inputs *)

(** A seek to before the start of the data, on a signed 32-bit field. *)
Lemma seek_failure_aborts_field_witness :
  Ignore badSeekData = false
  /\ setOffset (Offsets badSeekData)
       (freshState (TNamed "main" "Rec32") [x01; x00; x00; x00])
     = (Done (Some (errors.Wrap (errors.New "negative position") "seek")),
        mkState (mkBuf [x01; x00; x00; x00] 0 LittleEndian)
          [VStruct [VInt 0]] [EvSeek (-1) 0])
  /\ exampleSetField 1 (rootRecord (TNamed "main" "Rec32")) (firstField tInt32)
       (Some badSeekData) []
       (freshState (TNamed "main" "Rec32") [x01; x00; x00; x00])
     = (Done (Some (errors.Wrap
                      (errors.Wrap (errors.New "negative position") "seek")
                      "set offset")),
        mkState (mkBuf [x01; x00; x00; x00] 0 LittleEndian)
          [VStruct [VInt 0]] [EvSeek (-1) 0]).
Proof.
  assert (H1 : Ignore badSeekData = false) by reflexivity.
  assert (H2 : setOffset (Offsets badSeekData)
                 (freshState (TNamed "main" "Rec32") [x01; x00; x00; x00])
               = (Done (Some (errors.Wrap (errors.New "negative position")
                                "seek")),
                  mkState (mkBuf [x01; x00; x00; x00] 0 LittleEndian)
                    [VStruct [VInt 0]] [EvSeek (-1) 0]))
    by (vm_compute; reflexivity).
  split; [exact H1|]. split; [exact H2|].
  exact (proj1 (seek_failure_aborts_field exampleDecls string exampleParseTag
                  exampleReadData 0 (rootRecord (TNamed "main" "Rec32"))
                  (firstField tInt32) badSeekData [] _ _ _ H1 H2)).
Defined.

(** The record [Skipped], both of whose fields carry the tag [-]. *)
Lemma ignored_fields_read_nothing_witness :
  underlyingOf moreDecls (TNamed "main" "Skipped")
  = UStruct [exported "A" tUint8 "-"; exported "B" tInt32 "-"]
  /\ unmarshal moreDecls string exampleParseTag exampleReadData 1
       (Some (TPtr (TNamed "main" "Skipped"), VPtr (Some (mkLoc 0 [])))) []
       skippedState
     = (Done None, skippedState).
Proof.
  assert (Hu : underlyingOf moreDecls (TNamed "main" "Skipped")
               = UStruct [exported "A" tUint8 "-"; exported "B" tInt32 "-"])
    by reflexivity.
  split; [exact Hu|].
  apply (ignored_fields_read_nothing moreDecls string exampleParseTag
           exampleReadData 0 (TNamed "main" "Skipped") (mkLoc 0 []) []
           [exported "A" tUint8 "-"; exported "B" tInt32 "-"] skippedState Hu).
  repeat constructor;
    exists "-", (mkFieldReadData true None [] "" None); repeat split.
Defined.

(** A field that is a pointer to an integer. *)
Lemma unsupported_kind_error_witness :
  isSupported (kindOf exampleDecls (TPtr tInt32)) = false
  /\ exampleSetField 1 (rootRecord (TNamed "main" "Rec32"))
       (firstField (TPtr tInt32)) (Some emptyFieldReadData) []
       (freshState (TNamed "main" "Rec32") [x01; x00; x00; x00])
     = (Done (Some (errors.New
                      ("type " +:+ dquote +:+ "ptr" +:+ dquote
                       +:+ " not supported"))),
        freshState (TNamed "main" "Rec32") [x01; x00; x00; x00]).
Proof.
  assert (Hk : isSupported (kindOf exampleDecls (TPtr tInt32)) = false)
    by reflexivity.
  split; [exact Hk|].
  exact (proj1 (unsupported_kind_error exampleDecls string exampleParseTag
                  exampleReadData 0 (rootRecord (TNamed "main" "Rec32"))
                  (firstField (TPtr tInt32)) emptyFieldReadData [] _ _
                  Hk eq_refl eq_refl eq_refl)).
Defined.

(** An [int32] value handed to [Unmarshal]. *)
Lemma invalid_target_text_witness :
  invalidTarget exampleDecls (Some (tInt32, VInt 7))
  /\ exists e,
       Unmarshal exampleDecls string exampleParseTag exampleReadData 3
         (Some (tInt32, VInt 7)) intState
       = (Done (Some e), intState)
       /\ Error exampleDecls e = "binstruct: Unmarshal(non-pointer int32)".
Proof.
  assert (Hinv : invalidTarget exampleDecls (Some (tInt32, VInt 7)))
    by (left; vm_compute; discriminate).
  split; [exact Hinv|].
  destruct (invalid_target_text exampleDecls string exampleParseTag
              exampleReadData 3 (Some (tInt32, VInt 7)) intState Hinv)
    as (e & Hrun & Htext).
  exists e. split; [exact Hrun|exact Htext].
Defined.

(** A signed 32-bit field over two bytes only. *)
Lemma scalar_failure_leaves_store_witness :
  isScalar (kindOf exampleDecls tInt32) = true
  /\ exampleSetField 1 (rootRecord (TNamed "main" "Rec32")) (firstField tInt32)
       (Some emptyFieldReadData) []
       (freshState (TNamed "main" "Rec32") [x01; x02])
     = (Done (Some (errors.New "unexpected EOF")),
        mkState (mkBuf [x01; x02] 2 LittleEndian) [VStruct [VInt 0]]
          [EvReadInt32])
  /\ heap (mkState (mkBuf [x01; x02] 2 LittleEndian) [VStruct [VInt 0]]
             [EvReadInt32])
     = heap (freshState (TNamed "main" "Rec32") [x01; x02]).
Proof.
  assert (Hk : isScalar (kindOf exampleDecls tInt32) = true) by reflexivity.
  assert (Hrun : exampleSetField 1 (rootRecord (TNamed "main" "Rec32"))
                   (firstField tInt32) (Some emptyFieldReadData) []
                   (freshState (TNamed "main" "Rec32") [x01; x02])
                 = (Done (Some (errors.New "unexpected EOF")),
                    mkState (mkBuf [x01; x02] 2 LittleEndian)
                      [VStruct [VInt 0]] [EvReadInt32]))
    by (vm_compute; reflexivity).
  split; [exact Hk|]. split; [exact Hrun|].
  exact (scalar_failure_leaves_store exampleDecls string exampleParseTag
           exampleReadData 0 (rootRecord (TNamed "main" "Rec32"))
           (firstField tInt32) emptyFieldReadData [] _ _ _ Hk eq_refl Hrun).
Defined.








(** A slice with a length of -1. *)
Lemma nonpositive_length_decodes_nothing_witness :
  Length (lengthData (-1)) = Some (-1)
  /\ kindOf exampleDecls (TSlice tUint8) = reflect.Slice
  /\ exampleSetField 1 (rootRecord (TNamed "main" "Seq"))
       (firstField (TSlice tUint8)) (Some (lengthData (-1))) [] sliceHolding
     = (Done None, sliceHolding).
Proof.
  assert (Hl : Length (lengthData (-1)) = Some (-1)) by reflexivity.
  assert (Hk : kindOf exampleDecls (TSlice tUint8) = reflect.Slice)
    by reflexivity.
  split; [exact Hl|]. split; [exact Hk|].
  apply (proj1 (nonpositive_length_decodes_nothing exampleDecls string
                  exampleParseTag exampleReadData 0
                  (rootRecord (TNamed "main" "Seq"))
                  (firstField (TSlice tUint8)) (lengthData (-1)) [] (-1)
                  sliceHolding sliceHolding eq_refl eq_refl Hl eq_refl) Hk).
  lia.
Defined.

(** An array of three sevens, decoded with length 2 over 01 02 03: the last
    element stays a seven. *)
Lemma short_array_length_keeps_rest_witness :
  kindOf exampleDecls (TArray 3 tUint8) = reflect.Array
  /\ Length (lengthData 2) = Some 2
  /\ heap_get
       (heap (snd (exampleSetField 2 (rootRecord (TNamed "main" "Arr3"))
                     (firstField (TArray 3 tUint8)) (Some (lengthData 2)) []
                     arrayOfSevens)))
       (mkLoc 0 [0%nat; 2%nat])
     = Some (VUint 7).
Proof.
  assert (Hk : kindOf exampleDecls (TArray 3 tUint8) = reflect.Array)
    by reflexivity.
  assert (Hl : Length (lengthData 2) = Some 2) by reflexivity.
  split; [exact Hk|]. split; [exact Hl|].
  refine (eq_trans
            (short_array_length_keeps_rest exampleDecls string
               exampleParseTag exampleReadData 1
               (rootRecord (TNamed "main" "Arr3"))
               (firstField (TArray 3 tUint8)) (lengthData 2) [] 2
               arrayOfSevens arrayOfSevens exampleDecls_receiversKept
               Hk eq_refl eq_refl Hl _ eq_refl _ 2%nat [] _) _).
  - lia.
  - vm_compute. lia.
  - vm_compute. lia.
  - reflexivity.
Defined.
